(** * ProposalTimeline: the 36-month cost projection

    A model of [src/components/proposals/ProposalTimeline.tsx]: the month
    labels ([generateMonthLabels]), the activity predicate
    ([isCircuitActive]) and the per-month accumulation done in the
    component's [useMemo] callback ([timelineData]), with the function of
    its two queries ([queryFn]) and the label formatter of its tooltip
    ([labelFormatter]).

    Conventions of the model.
    - A JavaScript [Date] is its time value: [Some t] with [t] an integer
      number of milliseconds since the epoch, or [None] for an Invalid Date
      (time value NaN).  The upper and lower limits of the time range
      (8.64e15 ms either side of the epoch) are not modelled.
    - A numeric result that may be NaN is an [option Z], [None] being NaN.
    - Local time is UTC shifted by a constant offset [LocalTZA]; daylight
      saving changes are not modelled.
    - [Date.parse] is a parameter [parse] of the development: the language
      leaves the accepted formats to the runtime.
    - [monthlycost] is an exact integer amount; rounding of fractional
      amounts by the double-precision addition is outside the model. *)

From Stdlib Require Import ZArith List String Ascii Bool Lia.
From Stdlib Require Import Decimal DecimalString.
Import ListNotations.

Local Open Scope string_scope.
Local Open Scope list_scope.
Local Open Scope Z_scope.
Local Open Scope bool_scope.

(** ** The calendar arithmetic of the Date object (ECMA-262, 21.4.1) *)

Module JSDate.

Definition msPerDay : Z := 86400000.

Definition Day (t : Z) : Z := t / msPerDay.

Definition TimeWithinDay (t : Z) : Z := t mod msPerDay.

Definition isLeapYear (y : Z) : bool :=
  (y mod 4 =? 0) && (negb (y mod 100 =? 0) || (y mod 400 =? 0)).

Definition DaysInYear (y : Z) : Z := if isLeapYear y then 366 else 365.

Definition DayFromYear (y : Z) : Z :=
  365 * (y - 1970) + (y - 1969) / 4 - (y - 1901) / 100 + (y - 1601) / 400.

(** The largest year [y] with [DayFromYear y <= d]: a first guess from the
    mean length of a year, corrected by at most one year. *)
Definition YearFromDay (d : Z) : Z :=
  let y := 1970 + (400 * d) / 146097 in
  if DayFromYear (y + 1) <=? d then y + 1
  else if d <? DayFromYear y then y - 1
  else y.

Definition YearFromTime (t : Z) : Z := YearFromDay (Day t).

Definition InLeapYear (t : Z) : Z :=
  if isLeapYear (YearFromTime t) then 1 else 0.

Definition DayWithinYear (t : Z) : Z := Day t - DayFromYear (YearFromTime t).

(** Day number, within its year, of the first day of month [m] (0..11);
    [leap] is 1 in a leap year and 0 otherwise. *)
Definition monthStart (m leap : Z) : Z :=
  match m with
  | 0 => 0
  | 1 => 31
  | 2 => 59 + leap
  | 3 => 90 + leap
  | 4 => 120 + leap
  | 5 => 151 + leap
  | 6 => 181 + leap
  | 7 => 212 + leap
  | 8 => 243 + leap
  | 9 => 273 + leap
  | 10 => 304 + leap
  | 11 => 334 + leap
  | _ => 365 + leap
  end.

Definition MonthFromTime (t : Z) : Z :=
  let d := DayWithinYear t in
  let leap := InLeapYear t in
  if d <? 31 then 0
  else if d <? 59 + leap then 1
  else if d <? 90 + leap then 2
  else if d <? 120 + leap then 3
  else if d <? 151 + leap then 4
  else if d <? 181 + leap then 5
  else if d <? 212 + leap then 6
  else if d <? 243 + leap then 7
  else if d <? 273 + leap then 8
  else if d <? 304 + leap then 9
  else if d <? 334 + leap then 10
  else 11.

Definition DateFromTime (t : Z) : Z :=
  DayWithinYear t - monthStart (MonthFromTime t) (InLeapYear t) + 1.

(** [MakeDay year month date]: the day number of the first day of month
    [month mod 12] of year [year + floor (month / 12)], plus [date - 1]. *)
Definition MakeDay (year month date : Z) : Z :=
  let ym := year + month / 12 in
  let mn := month mod 12 in
  DayFromYear ym + monthStart mn (if isLeapYear ym then 1 else 0) + date - 1.

Definition MakeDate (day time : Z) : Z := day * msPerDay + time.

End JSDate.

Import JSDate.

(** The [Date] object: its time value, or [None] for an Invalid Date. *)
Definition Date : Type := option Z.

(** A JavaScript number that is an integer or NaN ([None]). *)
Definition Number : Type := option Z.

(** ** The data of the component *)

(** Modelled from the spec: the [Circuit] type of [../../types], which is
    not part of the sources at hand.  The fields are the ones the component
    reads: [circuit.type] (a string), [circuit.monthlycost] (a number) and
    the two optional date strings; [None] stands for [null] or
    [undefined]. *)
Record Circuit : Type := mkCircuit {
  type : string;
  monthlycost : Z;
  contract_start_date : option string;
  contract_end_date : option string
}.

(** [interface MonthData] *)
Record MonthData : Type := mkMonthData {
  month : string;
  existingMpls : Z;
  existingDia : Z;
  existingBroadband : Z;
  existingLte : Z;
  proposedMpls : Z;
  proposedDia : Z;
  proposedBroadband : Z;
  proposedLte : Z
}.

(** The eight numeric properties of a [MonthData] object. *)
Inductive Field : Type :=
| ExistingMpls | ExistingDia | ExistingBroadband | ExistingLte
| ProposedMpls | ProposedDia | ProposedBroadband | ProposedLte.

Definition fieldName (f : Field) : string :=
  match f with
  | ExistingMpls => "existingMpls"
  | ExistingDia => "existingDia"
  | ExistingBroadband => "existingBroadband"
  | ExistingLte => "existingLte"
  | ProposedMpls => "proposedMpls"
  | ProposedDia => "proposedDia"
  | ProposedBroadband => "proposedBroadband"
  | ProposedLte => "proposedLte"
  end.

Definition allFields : list Field :=
  [ExistingMpls; ExistingDia; ExistingBroadband; ExistingLte;
   ProposedMpls; ProposedDia; ProposedBroadband; ProposedLte].

Definition getField (f : Field) (md : MonthData) : Z :=
  match f with
  | ExistingMpls => existingMpls md
  | ExistingDia => existingDia md
  | ExistingBroadband => existingBroadband md
  | ExistingLte => existingLte md
  | ProposedMpls => proposedMpls md
  | ProposedDia => proposedDia md
  | ProposedBroadband => proposedBroadband md
  | ProposedLte => proposedLte md
  end.

Definition setField (f : Field) (v : Z) (md : MonthData) : MonthData :=
  let '(mkMonthData m em ed eb el pm pd pb pl) := md in
  match f with
  | ExistingMpls => mkMonthData m v ed eb el pm pd pb pl
  | ExistingDia => mkMonthData m em v eb el pm pd pb pl
  | ExistingBroadband => mkMonthData m em ed v el pm pd pb pl
  | ExistingLte => mkMonthData m em ed eb v pm pd pb pl
  | ProposedMpls => mkMonthData m em ed eb el v pd pb pl
  | ProposedDia => mkMonthData m em ed eb el pm v pb pl
  | ProposedBroadband => mkMonthData m em ed eb el pm pd v pl
  | ProposedLte => mkMonthData m em ed eb el pm pd pb v
  end.

(** The numeric property a key names, if it names one. *)
Definition fieldOfKey (key : string) : option Field :=
  find (fun f => String.eqb key (fieldName f)) allFields.

(** Own property names of the object literal built for each month. *)
Definition ownKeys : list string := "month" :: map fieldName allFields.

(** Property names every object inherits from [Object.prototype]. *)
Definition prototypeKeys : list string :=
  ["constructor"; "hasOwnProperty"; "isPrototypeOf"; "propertyIsEnumerable";
   "toLocaleString"; "toString"; "valueOf"; "__proto__";
   "__defineGetter__"; "__defineSetter__";
   "__lookupGetter__"; "__lookupSetter__"].

(** [key in monthData]: an own or an inherited property. *)
Definition keyIn (key : string) : bool :=
  existsb (String.eqb key) (ownKeys ++ prototypeKeys).

(** [monthData[key] += cost] for a key that names a numeric property.  For
    the other keys that pass [keyIn] ("month" and the inherited names) the
    object is returned as it is: no key built by the component is one of
    them ([keyIn_prefixed] below). *)
Definition addToKey (md : MonthData) (key : string) (cost : Z) : MonthData :=
  match fieldOfKey key with
  | Some f => setField f (getField f md + cost) md
  | None => md
  end.

(** ** Strings *)

Definition isLetter (c : ascii) : bool :=
  let n := nat_of_ascii c in
  ((65 <=? n) && (n <=? 90) || (97 <=? n) && (n <=? 122))%nat.

(** [s.replace(/[^a-zA-Z]/g, '')] *)
Fixpoint removeNonLetters (s : string) : string :=
  match s with
  | EmptyString => EmptyString
  | String c rest =>
      if isLetter c then String c (removeNonLetters rest)
      else removeNonLetters rest
  end.

(** [n.toString()] for an integer [n]. *)
Definition toString (n : Z) : string := NilZero.string_of_int (Z.to_int n).

(** [x.toString()] for a number that may be NaN. *)
Definition numberToString (x : Number) : string :=
  match x with
  | Some n => toString n
  | None => "NaN"
  end.

(** JavaScript truthiness of an optional string: [null], [undefined] and
    the empty string are falsy. *)
Definition truthy (s : option string) : bool :=
  match s with
  | None => false
  | Some EmptyString => false
  | Some (String _ _) => true
  end.

(** [a <= b] on two [Date] objects: both are converted to their time
    values, and a comparison with NaN is false. *)
Definition dateLe (a b : Date) : bool :=
  match a, b with
  | Some x, Some y => x <=? y
  | _, _ => false
  end.

(** [array.map((x, index) => f x index)], counting from [index]. *)
Fixpoint mapi {A B : Type} (f : A -> Z -> B) (index : Z) (l : list A) : list B :=
  match l with
  | [] => []
  | x :: rest => f x index :: mapi f (index + 1) rest
  end.

(** ** The component *)

Section Timeline.

(** Offset of local time from UTC, in milliseconds. *)
Variable LocalTZA : Z.

(** [Date.parse]: the time value of a date string, [None] when the string
    is not recognised. *)
Variable parse : string -> option Z.

Definition LocalTime (t : Z) : Z := t + LocalTZA.

Definition UTC (t : Z) : Z := t - LocalTZA.

(** [new Date(s)] for a string [s]. *)
Definition newDateOfString (s : string) : Date := parse s.

(** [date.getMonth()] *)
Definition getMonth (date : Date) : Number :=
  option_map (fun t => MonthFromTime (LocalTime t)) date.

(** [date.getFullYear()] *)
Definition getFullYear (date : Date) : Number :=
  option_map (fun t => YearFromTime (LocalTime t)) date.

(** [date.setMonth(m)]: the new time value of [date]. *)
Definition setMonth (date : Date) (m : Number) : Date :=
  match date, m with
  | Some t, Some mo =>
      let lt := LocalTime t in
      let newDate :=
        MakeDate (MakeDay (YearFromTime lt) mo (DateFromTime lt))
                 (TimeWithinDay lt) in
      Some (UTC newDate)
  | _, _ => None
  end.

(** [x + i] for a number [x] and an integer [i]. *)
Definition numAdd (x : Number) (i : Z) : Number :=
  option_map (fun v => v + i) x.

(** The label pushed for month [i]. *)
Definition monthLabel (startDate : Date) (i : Z) : string :=
  let date := setMonth startDate (numAdd (getMonth startDate) i) in
  match getMonth date with
  | Some 0 => numberToString (getFullYear date)
  | _ => EmptyString
  end.

Definition generateMonthLabels (startDate : Date) : list string :=
  map (fun i => monthLabel startDate (Z.of_nat i)) (seq 0 36).

Definition isCircuitActive (circuit : Circuit) (monthDate : Date) : bool :=
  match contract_start_date circuit with
  | None | Some EmptyString => false
  | Some start =>
      let startDate := newDateOfString start in
      let endDate : option Date :=
        match contract_end_date circuit with
        | None | Some EmptyString => None
        | Some e => Some (newDateOfString e)
        end in
      match endDate with
      | None => dateLe startDate monthDate
      | Some endDate => dateLe startDate monthDate && dateLe monthDate endDate
      end
  end.

(** The body of the two [forEach] callbacks; [prefix] is "existing" in the
    first and "proposed" in the second. *)
Definition accumulate (prefix : string) (monthDate : Date)
    (monthData : MonthData) (circuit : Circuit) : MonthData :=
  if isCircuitActive circuit monthDate then
    let key := (prefix ++ removeNonLetters (type circuit))%string in
    if keyIn key then addToKey monthData key (monthlycost circuit)
    else monthData
  else monthData.

(** The date the activity of the circuits is sampled at for month [index]. *)
Definition monthDateOf (startDate : Date) (index : Z) : Date :=
  setMonth startDate (numAdd (getMonth startDate) index).

(** The callback of [months.map]. *)
Definition monthEntry (startDate : Date) (active proposed : list Circuit)
    (label : string) (index : Z) : MonthData :=
  let monthDate := monthDateOf startDate index in
  let monthData := mkMonthData label 0 0 0 0 0 0 0 0 in
  let monthData := fold_left (accumulate "existing" monthDate) active monthData in
  fold_left (accumulate "proposed" monthDate) proposed monthData.

(** The [useMemo] callback.  [now] is the reading of the clock taken by
    [new Date()]; [activeData] and [proposedData] are the [data] of the two
    queries, [None] while a query has not resolved. *)
Definition timelineData (now : Z) (activeData proposedData : option (list Circuit))
    : list MonthData :=
  match activeData, proposedData with
  | Some active, Some proposed =>
      let startDate : Date := Some now in
      let months := generateMonthLabels startDate in
      mapi (monthEntry startDate active proposed) 0 months
  | _, _ => []
  end.

End Timeline.

(** ** A date parser for the examples

    The date-only form [YYYY-MM-DD] of the Date Time String Format
    (ECMA-262, 21.4.1.32): midnight UTC of that day, and NaN for a string
    of another shape or with a month or day out of range.  It is one
    possible value of the parameter [parse]. *)

Definition digit (c : ascii) : option Z :=
  let n := Z.of_nat (nat_of_ascii c) in
  if (48 <=? n) && (n <=? 57) then Some (n - 48) else None.

Definition daysInMonth (y m : Z) : Z :=
  let leap := if isLeapYear y then 1 else 0 in
  monthStart (m + 1) leap - monthStart m leap.

Definition parseISODate (s : string) : option Z :=
  match list_ascii_of_string s with
  | [y1; y2; y3; y4; "-"%char; m1; m2; "-"%char; d1; d2] =>
      match digit y1, digit y2, digit y3, digit y4,
            digit m1, digit m2, digit d1, digit d2 with
      | Some a, Some b, Some c, Some d, Some e, Some f, Some g, Some h =>
          let y := 1000 * a + 100 * b + 10 * c + d in
          let m := 10 * e + f in
          let dt := 10 * g + h in
          if (1 <=? m) && (m <=? 12) && (1 <=? dt)
             && (dt <=? daysInMonth y (m - 1))
          then Some (MakeDate (MakeDay y (m - 1) dt) 0)
          else None
      | _, _, _, _, _, _, _, _ => None
      end
  | _ => None
  end.

(** ** Reading the output *)

(** The four [existing*] properties and the four [proposed*] properties. *)
Definition existingPart (md : MonthData) : Z * Z * Z * Z :=
  (existingMpls md, existingDia md, existingBroadband md, existingLte md).

Definition proposedPart (md : MonthData) : Z * Z * Z * Z :=
  (proposedMpls md, proposedDia md, proposedBroadband md, proposedLte md).

(** The key of one of the eight numeric properties. *)
Definition recognized (key : string) : bool :=
  existsb (fun f => String.eqb key (fieldName f)) allFields.

(** Year and month index of the calendar month [i] months after month [m]
    of year [y]. *)
Definition yearAfter (y m i : Z) : Z := y + (m + i) / 12.

Definition monthAfter (m i : Z) : Z := (m + i) mod 12.

(** [a <= b] holds of two dates: both are valid and ordered. *)
Definition DateLe (a b : Date) : Prop :=
  exists x y, a = Some x /\ b = Some y /\ x <= y.

(** All eight numeric properties are non-negative. *)
Definition nonNegative (md : MonthData) : Prop :=
  forall f, 0 <= getField f md.

(** A date string: present, not empty, and not recognised by [parse]. *)
Definition unparsable (parse : string -> option Z) (d : option string) : Prop :=
  exists s, d = Some s /\ truthy d = true /\ parse s = None.

Definition Field_eq_dec (f g : Field) : {f = g} + {f <> g}.
Proof. decide equality. Defined.

(** What one circuit adds to property [f] of the bucket sampled at
    [monthDate] when it is met in the pass with prefix [prefix]. *)
Definition contribution (parse : string -> option Z) (prefix : string)
    (monthDate : Date) (f : Field) (c : Circuit) : Z :=
  if isCircuitActive parse c monthDate then
    match fieldOfKey (prefix ++ removeNonLetters (type c))%string with
    | Some g => if Field_eq_dec f g then monthlycost c else 0
    | None => 0
    end
  else 0.

Definition sumZ (l : list Z) : Z := fold_right Z.add 0 l.

(** The time value of the sampling date of month [i] for a clock reading
    [now]: the local date and time of [now], moved [i] months ahead by
    [MakeDay]. *)
Definition monthTime (LocalTZA now i : Z) : Z :=
  let lt := now + LocalTZA in
  MakeDate (MakeDay (YearFromTime lt) (MonthFromTime lt + i) (DateFromTime lt))
           (TimeWithinDay lt) - LocalTZA.

(** Property [f] of the bucket at index [j] of an output. *)
Definition bucketField (f : Field) (out : list MonthData) (j : nat) : option Z :=
  option_map (getField f) (nth_error out j).

(** Whether a property belongs to the "existing" group. *)
Definition isExisting (f : Field) : bool :=
  match f with
  | ExistingMpls | ExistingDia | ExistingBroadband | ExistingLte => true
  | _ => false
  end.

(** ** Example data *)

(** Midnight UTC of 2024-01-15, 2024-02-15 and 2024-03-15. *)
Definition t_2024_01_15 : Z := 1705276800000.

Definition t_2024_02_15 : Z := 1707955200000.

Definition t_2024_03_15 : Z := 1710460800000.

(** The item of the worked example, with the type spelt as on the chart's
    legend, and the same item with the type spelt as in the property
    name. *)
Definition itemMPLS : Circuit :=
  mkCircuit "MPLS" 100 (Some "2024-01-15") (Some "2024-03-15").

Definition itemMpls : Circuit :=
  mkCircuit "Mpls" 100 (Some "2024-01-15") (Some "2024-03-15").

Definition itemDedicated : Circuit :=
  mkCircuit "Dedicated Internet Access" 250 (Some "2024-01-15") None.

Definition itemOpenEnded : Circuit :=
  mkCircuit "Broadband" 40 (Some "2024-03-15") None.

Definition itemNoStart : Circuit :=
  mkCircuit "Lte" 30 None (Some "2024-03-15").

Definition itemReversed : Circuit :=
  mkCircuit "Dia" 75 (Some "2024-03-15") (Some "2024-01-15").

Definition itemBadStart : Circuit :=
  mkCircuit "Dia" 75 (Some "next spring") None.

Definition itemBadEnd : Circuit :=
  mkCircuit "Dia" 75 (Some "2024-01-15") (Some "15/03/2024").

(** ** Further parts of the component *)

(** The circuit type a property stands for, as its key spells it. *)
Definition typeName (f : Field) : string :=
  match f with
  | ExistingMpls | ProposedMpls => "Mpls"
  | ExistingDia | ProposedDia => "Dia"
  | ExistingBroadband | ProposedBroadband => "Broadband"
  | ExistingLte | ProposedLte => "Lte"
  end.

Definition typeNames : list string := ["Mpls"; "Dia"; "Broadband"; "Lte"].

(** A circuit that is active at [monthDate] and whose type, with the
    non-letters taken out, spells the type of property [f]. *)
Definition counted (parse : string -> option Z) (monthDate : Date)
    (f : Field) (c : Circuit) : bool :=
  isCircuitActive parse c monthDate
  && String.eqb (removeNonLetters (type c)) (typeName f).

(** The list a property is fed from. *)
Definition ownList (f : Field) (active proposed : list Circuit)
    : list Circuit :=
  if isExisting f then active else proposed.

Definition allLetters (s : string) : bool :=
  forallb isLetter (list_ascii_of_string s).

(** [Promise.all] on settled promises: the values in order, or a rejection
    ([None]) when one of them is rejected. *)
Fixpoint promiseAll {A : Type} (l : list (option A)) : option (list A) :=
  match l with
  | [] => Some []
  | None :: _ => None
  | Some x :: rest => option_map (cons x) (promiseAll rest)
  end.

Section Queries.

(** A location, and the outcome of fetching its circuits
    ([getActiveCircuits(location.id)] in the first query,
    [getProposedCircuits(proposalId, location.id)] in the second): the list
    the promise resolves to, or [None] when it is rejected. *)
Variable Location : Type.

Variable fetch : Location -> option (list Circuit).

(** The [queryFn] of the two queries; [results.flat()] is [List.concat]. *)
Definition queryFn (locations : list Location) : option (list Circuit) :=
  match locations with
  | [] => Some []
  | _ :: _ => option_map (@List.concat Circuit) (promiseAll (map fetch locations))
  end.

End Queries.

(** What a property read can yield here. *)
Inductive JSValue : Type :=
| VUndefined
| VNumber (n : Z)
| VString (s : string)
| VOther.

(** [md[key]] for a month object: its own properties, the inherited ones
    (functions and the prototype object, [VOther]), and [undefined] for
    any other key. *)
Definition getProperty (md : MonthData) (key : string) : JSValue :=
  match fieldOfKey key with
  | Some f => VNumber (getField f md)
  | None =>
      if String.eqb key "month" then VString (month md)
      else if existsb (String.eqb key) prototypeKeys then VOther
      else VUndefined
  end.

(** [x + v] as [setMonth] then reads it, for a number [x]: the sum when [v]
    is a number and NaN when [v] is [undefined].  With a string or an
    object the sum is a string; the formatter below never meets that case
    ([getProperty_index]), which is mapped to NaN here. *)
Definition plusValue (x : Number) (v : JSValue) : Number :=
  match v with
  | VNumber n => numAdd x n
  | _ => None
  end.

(** One entry of the payload the chart hands to the tooltip: its [payload]
    property is the month object of the hovered bar, when there is one. *)
Record TooltipItem : Type := mkTooltipItem {
  item_payload : option MonthData
}.

Section Tooltip.

Variable LocalTZA : Z.

(** The en-US short month and year of a valid time value, as the runtime's
    [Intl] formats it. *)
Variable formatMonthYear : Z -> string.

(** [date.toLocaleDateString('en-US', { month: 'short', year: 'numeric' })] *)
Definition toLocaleDateString (date : Date) : string :=
  match date with
  | Some t => formatMonthYear t
  | None => "Invalid Date"
  end.

(** The [labelFormatter] of the tooltip; [now] is the clock reading of its
    [new Date()], [payload] is [None] for [undefined] or [null]. *)
Definition labelFormatter (now : Z) (label : string)
    (payload : option (list TooltipItem)) : string :=
  match payload with
  | Some (item :: _) =>
      match item_payload item with
      | Some md =>
          let date : Date := Some now in
          let date :=
            setMonth LocalTZA date
              (plusValue (getMonth LocalTZA date) (getProperty md "index")) in
          toLocaleDateString date
      | None => EmptyString
      end
  | _ => EmptyString
  end.

End Tooltip.

(** The labels that are not empty, in order. *)
Definition shownLabels (out : list MonthData) : list string :=
  filter (fun l => negb (String.eqb l "")) (map month out).

(** Two locations and what fetching them yields, for the examples. *)
Definition exampleCircuits (loc : bool) : list Circuit :=
  if loc then [itemMpls; itemOpenEnded] else [itemNoStart].

Definition exampleFetch (loc : bool) : option (list Circuit) :=
  Some (exampleCircuits loc).

(** The costs a pass adds to property [f] of the bucket sampled at
    [monthDate], in the order in which it meets them in the list [l]. *)
Definition addends (parse : string -> option Z) (monthDate : Date)
    (f : Field) (l : list Circuit) : list Z :=
  map monthlycost (filter (counted parse monthDate f) l).

(** A property that starts at 0 and has the addends added to it one after
    the other, from the first to the last. *)
Definition runningTotal (l : list Z) : Z := fold_left Z.add l 0.

(** The step of [date.setMonth(mo)] between reading the local time [lt] of
    the date and converting back to a time value: the local date and time
    the date is set to. *)
Definition setMonthLocal (lt mo : Z) : Z :=
  MakeDate (MakeDay (YearFromTime lt) mo (DateFromTime lt)) (TimeWithinDay lt).

(** ** Calendar lemmas *)

(** Linear arithmetic with division and remainder by constants. *)
Ltac divlia := Z.div_mod_to_equations; lia.

(** The twelve values of a month index. *)
Ltac month_cases mn H :=
  assert (mn = 0 \/ mn = 1 \/ mn = 2 \/ mn = 3 \/ mn = 4 \/ mn = 5 \/ mn = 6
          \/ mn = 7 \/ mn = 8 \/ mn = 9 \/ mn = 10 \/ mn = 11) as H by lia;
  repeat destruct H as [H | H].

Lemma DayFromYear_succ (y : Z) :
  DayFromYear (y + 1) = DayFromYear y + DaysInYear y.
Proof.
  unfold DayFromYear, DaysInYear, isLeapYear.
  destruct (Z.eqb_spec (y mod 4) 0); destruct (Z.eqb_spec (y mod 100) 0);
    destruct (Z.eqb_spec (y mod 400) 0); cbv [andb orb negb]; divlia.
Qed.

Lemma DaysInYear_leap (y : Z) :
  DaysInYear y = 365 + (if isLeapYear y then 1 else 0).
Proof. unfold DaysInYear; destruct (isLeapYear y); reflexivity. Qed.

Lemma DayFromYear_lt (y1 y2 : Z) :
  y1 < y2 -> DayFromYear y1 < DayFromYear y2.
Proof. unfold DayFromYear; divlia. Qed.

Lemma DayFromYear_le (y1 y2 : Z) :
  y1 <= y2 -> DayFromYear y1 <= DayFromYear y2.
Proof.
  intros H. destruct (Z.eq_dec y1 y2) as [->|Hne]; [lia|].
  apply Z.lt_le_incl, DayFromYear_lt; lia.
Qed.

Lemma YearFromDay_spec (d : Z) :
  DayFromYear (YearFromDay d) <= d < DayFromYear (YearFromDay d + 1).
Proof.
  unfold YearFromDay.
  set (y := 1970 + 400 * d / 146097).
  assert (DayFromYear (y - 1) <= d < DayFromYear (y + 2))
    by (unfold DayFromYear; subst y; divlia).
  destruct (Z.leb_spec (DayFromYear (y + 1)) d).
  - replace (y + 1 + 1) with (y + 2) by lia. lia.
  - destruct (Z.ltb_spec d (DayFromYear y)).
    + replace (y - 1 + 1) with y by lia. lia.
    + lia.
Qed.

(** [YearFromDay d] is the only year whose days include [d]. *)
Lemma YearFromDay_unique (d y : Z) :
  DayFromYear y <= d < DayFromYear (y + 1) -> YearFromDay d = y.
Proof.
  intros Hy. pose proof (YearFromDay_spec d) as Hs.
  destruct (Z.lt_trichotomy (YearFromDay d) y) as [L | [E | G]]; [|exact E|].
  - pose proof (DayFromYear_le (YearFromDay d + 1) y ltac:(lia)). lia.
  - pose proof (DayFromYear_le (y + 1) (YearFromDay d) ltac:(lia)). lia.
Qed.

Lemma Day_MakeDate (day time : Z) :
  0 <= time < msPerDay -> Day (MakeDate day time) = day.
Proof.
  intros H. unfold Day, MakeDate, msPerDay in *. divlia.
Qed.

Lemma TimeWithinDay_bounds (t : Z) : 0 <= TimeWithinDay t < msPerDay.
Proof. unfold TimeWithinDay, msPerDay. divlia. Qed.

Lemma DayWithinYear_bounds (t : Z) :
  0 <= DayWithinYear t < DaysInYear (YearFromTime t).
Proof.
  unfold DayWithinYear, YearFromTime.
  pose proof (YearFromDay_spec (Day t)) as H.
  rewrite DayFromYear_succ in H. lia.
Qed.

Lemma MonthFromTime_bounds (t : Z) : 0 <= MonthFromTime t <= 11.
Proof.
  unfold MonthFromTime.
  repeat match goal with |- context [if ?b then _ else _] => destruct b end;
    lia.
Qed.

Lemma DateFromTime_bounds (t : Z) : 1 <= DateFromTime t <= 31.
Proof.
  pose proof (DayWithinYear_bounds t) as H. rewrite DaysInYear_leap in H.
  unfold DateFromTime, MonthFromTime, InLeapYear in *.
  destruct (isLeapYear (YearFromTime t));
    repeat match goal with
           | |- context [if ?a <? ?b then _ else _] =>
               destruct (Z.ltb_spec a b)
           end; cbn [monthStart]; lia.
Qed.

Lemma monthStart_bounds (mn leap : Z) :
  0 <= mn <= 11 -> 0 <= leap <= 1 ->
  0 <= monthStart mn leap <= 334 + leap
  /\ (mn = 0 -> monthStart mn leap = 0)
  /\ (mn <> 0 -> 31 <= monthStart mn leap).
Proof.
  intros Hm Hl. month_cases mn C; subst mn; cbn [monthStart]; lia.
Qed.

Lemma monthStart_succ (mn leap : Z) :
  0 <= mn < 11 -> 0 <= leap <= 1 ->
  monthStart mn leap < monthStart (mn + 1) leap.
Proof.
  intros Hm Hl. assert (leap = 0 \/ leap = 1) as [-> | ->] by lia;
    month_cases mn C; subst mn; try reflexivity; lia.
Qed.

(** A day built by [MakeDay] from a day of the month between 1 and 31
    falls in the year of the month asked for. *)
Lemma MakeDay_year (year mo date : Z) :
  1 <= date <= 31 ->
  YearFromDay (MakeDay year mo date) = year + mo / 12.
Proof.
  intros Hd. apply YearFromDay_unique. unfold MakeDay.
  rewrite DayFromYear_succ, DaysInYear_leap.
  set (leap := if isLeapYear (year + mo / 12) then 1 else 0).
  assert (0 <= leap <= 1) by (subst leap; destruct (isLeapYear _); lia).
  pose proof (monthStart_bounds (mo mod 12) leap
                ltac:(divlia) ltac:(lia)) as [Hb _].
  lia.
Qed.

(** It falls in January exactly when the month asked for is a January. *)
Lemma MakeDay_january (year mo date time : Z) :
  1 <= date <= 31 -> 0 <= time < msPerDay ->
  MonthFromTime (MakeDate (MakeDay year mo date) time) = 0 <-> mo mod 12 = 0.
Proof.
  intros Hd Ht. unfold MonthFromTime, DayWithinYear, YearFromTime.
  rewrite Day_MakeDate by assumption.
  rewrite MakeDay_year by assumption.
  unfold MakeDay.
  set (leap := if isLeapYear (year + mo / 12) then 1 else 0).
  assert (0 <= leap <= 1) by (subst leap; destruct (isLeapYear _); lia).
  pose proof (monthStart_bounds (mo mod 12) leap
                ltac:(divlia) ltac:(lia)) as (Hb & H0 & H1).
  set (d := DayFromYear (year + mo / 12) + monthStart (mo mod 12) leap
            + date - 1 - DayFromYear (year + mo / 12)) in *.
  destruct (Z.ltb_spec d 31) as [Hlt | Hge].
  - split; [intros _ | reflexivity].
    destruct (Z.eq_dec (mo mod 12) 0) as [E | N]; [exact E|].
    specialize (H1 N). subst d. lia.
  - split.
    + repeat match goal with
             | |- context [if ?b then _ else _] => destruct b
             end; lia.
    + intros E. specialize (H0 E). subst d. lia.
Qed.

Lemma MakeDay_lt_succ (year mo date : Z) :
  MakeDay year mo date < MakeDay year (mo + 1) date.
Proof.
  unfold MakeDay.
  destruct (Z.eq_dec (mo mod 12) 11) as [E | N].
  - replace ((mo + 1) / 12) with (mo / 12 + 1) by divlia.
    replace ((mo + 1) mod 12) with 0 by divlia.
    rewrite E, Z.add_assoc, DayFromYear_succ, DaysInYear_leap.
    cbn [monthStart]. destruct (isLeapYear (year + mo / 12 + 1)); lia.
  - replace ((mo + 1) / 12) with (mo / 12) by divlia.
    replace ((mo + 1) mod 12) with (mo mod 12 + 1) by divlia.
    set (leap := if isLeapYear (year + mo / 12) then 1 else 0).
    assert (0 <= leap <= 1) by (subst leap; destruct (isLeapYear _); lia).
    pose proof (monthStart_succ (mo mod 12) leap ltac:(divlia) ltac:(lia)).
    lia.
Qed.

Lemma MakeDay_lt (year date m1 m2 : Z) :
  m1 < m2 -> MakeDay year m1 date < MakeDay year m2 date.
Proof.
  intros H. replace m2 with (m1 + 1 + Z.of_nat (Z.to_nat (m2 - m1 - 1))) by lia.
  induction (Z.to_nat (m2 - m1 - 1)) as [|n IH].
  - rewrite Z.add_0_r. apply MakeDay_lt_succ.
  - eapply Z.lt_trans; [exact IH|].
    replace (m1 + 1 + Z.of_nat (S n)) with (m1 + 1 + Z.of_nat n + 1) by lia.
    apply MakeDay_lt_succ.
Qed.

(** [MakeDay] meets its specification: the day it counts from is the first
    day of the month asked for. *)
Lemma MakeDay_first_of_month (year mo : Z) :
  let t := MakeDate (MakeDay year mo 1) 0 in
  YearFromTime t = year + mo / 12
  /\ MonthFromTime t = mo mod 12
  /\ DateFromTime t = 1.
Proof.
  assert (0 <= 0 < msPerDay) as H0 by (unfold msPerDay; lia).
  assert (YearFromTime (MakeDate (MakeDay year mo 1) 0) = year + mo / 12)
    as Hy by (unfold YearFromTime; rewrite Day_MakeDate by exact H0;
              apply MakeDay_year; lia).
  cbv zeta. split; [exact Hy|].
  unfold DateFromTime, MonthFromTime, InLeapYear, DayWithinYear.
  rewrite Hy, Day_MakeDate by exact H0. unfold MakeDay.
  assert (0 <= mo mod 12 <= 11) as Hm by divlia.
  remember (mo mod 12) as mn eqn:Emn. clear Emn.
  replace (DayFromYear (year + mo / 12)
           + monthStart mn (if isLeapYear (year + mo / 12) then 1 else 0)
           + 1 - 1 - DayFromYear (year + mo / 12))
    with (monthStart mn (if isLeapYear (year + mo / 12) then 1 else 0))
    by lia.
  destruct (isLeapYear (year + mo / 12));
    month_cases mn C; subst mn; split; reflexivity.
Qed.

(** ** The Date methods on a valid date *)

Lemma monthDateOf_valid (tza now i : Z) :
  monthDateOf tza (Some now) i = Some (monthTime tza now i).
Proof.
  unfold monthDateOf, setMonth, getMonth, numAdd, monthTime, LocalTime, UTC.
  cbn [option_map]. reflexivity. Qed.

Lemma monthTime_lt (tza now i j : Z) :
  i < j -> monthTime tza now i < monthTime tza now j.
Proof.
  intros H. unfold monthTime, MakeDate.
  pose proof (MakeDay_lt (YearFromTime (now + tza)) (DateFromTime (now + tza))
                (MonthFromTime (now + tza) + i) (MonthFromTime (now + tza) + j)
                ltac:(lia)).
  unfold msPerDay. lia.
Qed.

Lemma monthTime_le (tza now i j : Z) :
  i <= j -> monthTime tza now i <= monthTime tza now j.
Proof.
  intros H. destruct (Z.eq_dec i j) as [-> | N]; [lia|].
  apply Z.lt_le_incl, monthTime_lt; lia.
Qed.

(** The label of month [i]: the year of the month [i] months after the
    month of [now], when that month is a January. *)
Lemma monthLabel_valid (tza now i : Z) :
  let y := YearFromTime (now + tza) in
  let m := MonthFromTime (now + tza) in
  monthLabel tza (Some now) i =
    if monthAfter m i =? 0 then toString (yearAfter y m i) else "".
Proof.
  intros y m. unfold monthLabel, getMonth, getFullYear, numAdd, setMonth.
  cbn [option_map]. unfold LocalTime, UTC. fold y m.
  set (d := DateFromTime (now + tza)).
  set (tod := TimeWithinDay (now + tza)).
  replace (MakeDate (MakeDay y (m + i) d) tod - tza + tza)
    with (MakeDate (MakeDay y (m + i) d) tod) by lia.
  pose proof (DateFromTime_bounds (now + tza)) as Hd.
  pose proof (TimeWithinDay_bounds (now + tza)) as Ht.
  pose proof (MakeDay_january y (m + i) d tod Hd Ht) as Hj.
  unfold monthAfter, yearAfter.
  destruct (Z.eqb_spec ((m + i) mod 12) 0) as [E | N].
  - apply Hj in E. rewrite E. cbn [numberToString].
    unfold YearFromTime. rewrite Day_MakeDate by exact Ht.
    fold d. rewrite MakeDay_year by exact Hd. reflexivity.
  - assert (MonthFromTime (MakeDate (MakeDay y (m + i) d) tod) <> 0) as Hn
      by (intros E; apply Hj in E; contradiction).
    destruct (MonthFromTime (MakeDate (MakeDay y (m + i) d) tod));
      [contradiction | reflexivity | reflexivity].
Qed.

(** ** The list operations *)

Lemma mapi_length {A B : Type} (f : A -> Z -> B) (l : list A) (k : Z) :
  List.length (mapi f k l) = List.length l.
Proof.
  revert k; induction l as [|x l IH]; intros k; cbn; [reflexivity|].
  now rewrite IH.
Qed.

Lemma mapi_map_seq {A B : Type} (f : A -> Z -> B) (g : nat -> A) (n s : nat) :
  mapi f (Z.of_nat s) (map g (seq s n))
  = map (fun i => f (g i) (Z.of_nat i)) (seq s n).
Proof.
  revert s; induction n as [|n IH]; intros s; cbn [seq map mapi];
    [reflexivity|].
  f_equal. replace (Z.of_nat s + 1) with (Z.of_nat (S s)) by lia. apply IH.
Qed.

(** The output, month by month. *)
Lemma timelineData_months (tza : Z) (parse : string -> option Z) (now : Z)
    (active proposed : list Circuit) :
  timelineData tza parse now (Some active) (Some proposed)
  = map (fun i => monthEntry tza parse (Some now) active proposed
                    (monthLabel tza (Some now) (Z.of_nat i)) (Z.of_nat i))
        (seq 0 36).
Proof.
  unfold timelineData, generateMonthLabels.
  exact (mapi_map_seq _ _ 36 0).
Qed.

Lemma timelineData_length (tza : Z) (parse : string -> option Z) (now : Z)
    (active proposed : list Circuit) :
  List.length (timelineData tza parse now (Some active) (Some proposed)) = 36%nat.
Proof. rewrite timelineData_months, length_map, length_seq. reflexivity. Qed.

Lemma timelineData_nth (tza : Z) (parse : string -> option Z) (now : Z)
    (active proposed : list Circuit) (i : nat) :
  (i < 36)%nat ->
  nth_error (timelineData tza parse now (Some active) (Some proposed)) i
  = Some (monthEntry tza parse (Some now) active proposed
            (monthLabel tza (Some now) (Z.of_nat i)) (Z.of_nat i)).
Proof.
  intros Hi. rewrite timelineData_months, nth_error_map.
  rewrite nth_error_nth' with (d := 0%nat) by (rewrite length_seq; exact Hi).
  rewrite seq_nth by exact Hi. reflexivity.
Qed.

(** ** Keys and properties *)

Lemma existsb_find {A : Type} (p : A -> bool) (l : list A) :
  existsb p l = match find p l with Some _ => true | None => false end.
Proof.
  induction l as [|x l IH]; cbn; [reflexivity|].
  destruct (p x); [reflexivity | exact IH].
Qed.

Lemma recognized_fieldOfKey (key : string) :
  recognized key = match fieldOfKey key with Some _ => true | None => false end.
Proof. apply existsb_find. Qed.

Lemma fieldOfKey_name (key : string) (f : Field) :
  fieldOfKey key = Some f -> key = fieldName f.
Proof.
  intros H. apply find_some in H as [_ H]. now apply String.eqb_eq.
Qed.

Lemma fieldOfKey_keyIn (key : string) (f : Field) :
  fieldOfKey key = Some f -> keyIn key = true.
Proof.
  intros H. apply fieldOfKey_name in H. subst key.
  destruct f; reflexivity.
Qed.

(** A key built with one of the two prefixes passes the [in] test only by
    naming one of the eight numeric properties. *)
Lemma keyIn_prefixed (s : string) :
  keyIn ("existing" ++ s) = recognized ("existing" ++ s)
  /\ keyIn ("proposed" ++ s) = recognized ("proposed" ++ s).
Proof.
  unfold keyIn, recognized, ownKeys, prototypeKeys, allFields.
  cbn [map app existsb fieldName].
  split; cbn; rewrite ?orb_false_r; reflexivity.
Qed.

Lemma getField_setField (f g : Field) (v : Z) (md : MonthData) :
  getField f (setField g v md)
  = if Field_eq_dec f g then v else getField f md.
Proof. destruct md, f, g; reflexivity. Qed.

Lemma month_setField (g : Field) (v : Z) (md : MonthData) :
  month (setField g v md) = month md.
Proof. destruct md, g; reflexivity. Qed.

(** ** One step of a pass *)

Section Passes.

Variable parse : string -> option Z.

Lemma accumulate_inactive (prefix : string) (m : Date) (md : MonthData)
    (c : Circuit) :
  isCircuitActive parse c m = false -> accumulate parse prefix m md c = md.
Proof. intros H. unfold accumulate. now rewrite H. Qed.

Lemma accumulate_unrecognized (prefix : string) (m : Date) (md : MonthData)
    (c : Circuit) :
  recognized (prefix ++ removeNonLetters (type c)) = false ->
  accumulate parse prefix m md c = md.
Proof.
  intros H. unfold accumulate, addToKey.
  rewrite recognized_fieldOfKey in H.
  destruct (fieldOfKey _); [discriminate|].
  destruct (isCircuitActive _ _ _); [destruct (keyIn _)|]; reflexivity.
Qed.

Lemma getField_accumulate (prefix : string) (m : Date) (md : MonthData)
    (c : Circuit) (f : Field) :
  getField f (accumulate parse prefix m md c)
  = getField f md + contribution parse prefix m f c.
Proof.
  unfold accumulate, contribution, addToKey.
  destruct (isCircuitActive parse c m); [|lia].
  destruct (fieldOfKey _) as [g|] eqn:E.
  - rewrite (fieldOfKey_keyIn _ _ E), getField_setField.
    destruct (Field_eq_dec f g) as [->|]; lia.
  - destruct (keyIn _); lia.
Qed.

Lemma month_accumulate (prefix : string) (m : Date) (md : MonthData)
    (c : Circuit) :
  month (accumulate parse prefix m md c) = month md.
Proof.
  unfold accumulate, addToKey.
  destruct (isCircuitActive parse c m); [|reflexivity].
  destruct (keyIn _); [|reflexivity].
  destruct (fieldOfKey _); [apply month_setField | reflexivity].
Qed.

Lemma getField_pass (prefix : string) (m : Date) (f : Field)
    (l : list Circuit) (md : MonthData) :
  getField f (fold_left (accumulate parse prefix m) l md)
  = getField f md + sumZ (map (contribution parse prefix m f) l).
Proof.
  revert md; induction l as [|c l IH]; intros md; cbn [fold_left map].
  - cbn. lia.
  - rewrite IH, getField_accumulate.
    change (sumZ (?x :: ?r)) with (x + sumZ r). lia.
Qed.

Lemma month_pass (prefix : string) (m : Date) (l : list Circuit)
    (md : MonthData) :
  month (fold_left (accumulate parse prefix m) l md) = month md.
Proof.
  revert md; induction l as [|c l IH]; intros md; cbn [fold_left];
    [reflexivity|].
  now rewrite IH, month_accumulate.
Qed.

Lemma pass_skip (prefix : string) (m : Date) (c : Circuit)
    (l1 l2 : list Circuit) (md : MonthData) :
  (forall md', accumulate parse prefix m md' c = md') ->
  fold_left (accumulate parse prefix m) (l1 ++ c :: l2) md
  = fold_left (accumulate parse prefix m) (l1 ++ l2) md.
Proof.
  intros H. rewrite !fold_left_app. cbn [fold_left]. now rewrite H.
Qed.

Lemma sumZ_app (l1 l2 : list Z) : sumZ (l1 ++ l2) = sumZ l1 + sumZ l2.
Proof.
  induction l1 as [|x l1 IH]; [reflexivity|].
  change (x + sumZ (l1 ++ l2) = x + sumZ l1 + sumZ l2). lia.
Qed.

Lemma sumZ_nonneg (l : list Z) : Forall (fun x => 0 <= x) l -> 0 <= sumZ l.
Proof.
  induction 1 as [|x l Hx _ IH]; [reflexivity|].
  change (0 <= x + sumZ l). lia.
Qed.

Variable LocalTZA : Z.

Lemma getField_monthEntry (startDate : Date) (active proposed : list Circuit)
    (label : string) (index : Z) (f : Field) :
  getField f (monthEntry LocalTZA parse startDate active proposed label index)
  = sumZ (map (contribution parse "existing"
                 (monthDateOf LocalTZA startDate index) f) active)
    + sumZ (map (contribution parse "proposed"
                   (monthDateOf LocalTZA startDate index) f) proposed).
Proof.
  unfold monthEntry. rewrite !getField_pass. destruct f; cbn; lia.
Qed.

Lemma month_monthEntry (startDate : Date) (active proposed : list Circuit)
    (label : string) (index : Z) :
  month (monthEntry LocalTZA parse startDate active proposed label index)
  = label.
Proof. unfold monthEntry. now rewrite !month_pass. Qed.

(** A circuit on which the "existing" step does nothing can be taken out of
    the first list; likewise for the second list. *)
Lemma timelineData_remove_active (now : Z) (c : Circuit)
    (l1 l2 proposed : list Circuit) :
  (forall m md, accumulate parse "existing" m md c = md) ->
  timelineData LocalTZA parse now (Some (l1 ++ c :: l2)) (Some proposed)
  = timelineData LocalTZA parse now (Some (l1 ++ l2)) (Some proposed).
Proof.
  intros H. rewrite !timelineData_months. apply map_ext. intros i.
  unfold monthEntry. rewrite pass_skip by (intros; apply H). reflexivity.
Qed.

Lemma timelineData_remove_proposed (now : Z) (c : Circuit)
    (active l1 l2 : list Circuit) :
  (forall m md, accumulate parse "proposed" m md c = md) ->
  timelineData LocalTZA parse now (Some active) (Some (l1 ++ c :: l2))
  = timelineData LocalTZA parse now (Some active) (Some (l1 ++ l2)).
Proof.
  intros H. rewrite !timelineData_months. apply map_ext. intros i.
  unfold monthEntry. rewrite pass_skip by (intros; apply H). reflexivity.
Qed.

End Passes.

(** ** The activity predicate *)

Lemma dateLe_DateLe (a b : Date) : dateLe a b = true <-> DateLe a b.
Proof.
  unfold dateLe, DateLe. split.
  - destruct a as [x|], b as [y|]; try discriminate.
    intros H. exists x, y. apply Z.leb_le in H. auto.
  - intros (x & y & -> & -> & H). now apply Z.leb_le.
Qed.

Lemma isCircuitActive_no_start (parse : string -> option Z) (c : Circuit)
    (m : Date) :
  truthy (contract_start_date c) = false -> isCircuitActive parse c m = false.
Proof.
  unfold isCircuitActive, truthy.
  destruct (contract_start_date c) as [[|a s]|]; [reflexivity | discriminate | reflexivity].
Qed.

Lemma isCircuitActive_open (parse : string -> option Z) (c : Circuit)
    (m : Date) (s : string) :
  contract_start_date c = Some s -> truthy (Some s) = true ->
  truthy (contract_end_date c) = false ->
  isCircuitActive parse c m = dateLe (newDateOfString parse s) m.
Proof.
  unfold isCircuitActive, truthy. intros -> Hs He.
  destruct s as [|a s]; [discriminate|].
  destruct (contract_end_date c) as [[|b e]|]; [reflexivity | discriminate | reflexivity].
Qed.

Lemma isCircuitActive_closed (parse : string -> option Z) (c : Circuit)
    (m : Date) (s e : string) :
  contract_start_date c = Some s -> truthy (Some s) = true ->
  contract_end_date c = Some e -> truthy (Some e) = true ->
  isCircuitActive parse c m
  = dateLe (newDateOfString parse s) m && dateLe m (newDateOfString parse e).
Proof.
  unfold isCircuitActive, truthy. intros -> Hs -> He.
  destruct s as [|a s]; [discriminate|].
  destruct e as [|b e]; [discriminate|]. reflexivity.
Qed.

(** C3. The activity predicate is false when the start date is absent;
    with a start date and no end date it holds exactly when
    start <= month anchor; with both dates it holds exactly when
    start <= month anchor <= end, both bounds included.  A date is absent
    when it is falsy ([null], [undefined] or the empty string); the dates
    compared are the ones [new Date] builds from the two strings. *)
Theorem C3_activity_predicate (parse : string -> option Z) (c : Circuit)
    (m : Date) :
  (truthy (contract_start_date c) = false ->
   isCircuitActive parse c m = false)
  /\ (forall s, contract_start_date c = Some s -> truthy (Some s) = true ->
        truthy (contract_end_date c) = false ->
        (isCircuitActive parse c m = true
         <-> DateLe (newDateOfString parse s) m))
  /\ (forall s e, contract_start_date c = Some s -> truthy (Some s) = true ->
        contract_end_date c = Some e -> truthy (Some e) = true ->
        (isCircuitActive parse c m = true
         <-> DateLe (newDateOfString parse s) m
             /\ DateLe m (newDateOfString parse e))).
Proof.
  split; [apply isCircuitActive_no_start|]. split.
  - intros s Hs Ht He. rewrite (isCircuitActive_open parse c m s Hs Ht He).
    apply dateLe_DateLe.
  - intros s e Hs Ht He Hte.
    rewrite (isCircuitActive_closed parse c m s e Hs Ht He Hte).
    rewrite andb_true_iff, !dateLe_DateLe. reflexivity.
Qed.

Lemma C3_activity_predicate_witness :
  isCircuitActive parseISODate itemNoStart (Some t_2024_02_15) = false
  /\ (isCircuitActive parseISODate itemOpenEnded (Some t_2024_03_15) = true
      <-> DateLe (newDateOfString parseISODate "2024-03-15")
                 (Some t_2024_03_15))
  /\ (isCircuitActive parseISODate itemMpls (Some t_2024_03_15) = true
      <-> DateLe (newDateOfString parseISODate "2024-01-15")
                 (Some t_2024_03_15)
          /\ DateLe (Some t_2024_03_15)
                    (newDateOfString parseISODate "2024-03-15")).
Proof.
  split; [|split].
  - apply (C3_activity_predicate parseISODate itemNoStart). reflexivity.
  - apply (C3_activity_predicate parseISODate itemOpenEnded
             (Some t_2024_03_15)); reflexivity.
  - apply (C3_activity_predicate parseISODate itemMpls
             (Some t_2024_03_15)); reflexivity.
Defined.

(** C7. An item whose two dates are present with start > end is active at
    no month anchor; the predicate is a total function, so nothing is
    raised. *)
Theorem C7_reversed_range_never_active (parse : string -> option Z)
    (c : Circuit) (s e : string) (a b : Z) :
  contract_start_date c = Some s -> truthy (Some s) = true ->
  contract_end_date c = Some e -> truthy (Some e) = true ->
  newDateOfString parse s = Some a -> newDateOfString parse e = Some b ->
  b < a ->
  forall m : Date, isCircuitActive parse c m = false.
Proof.
  intros Hs Hts He Hte Ha Hb Hlt m.
  rewrite (isCircuitActive_closed parse c m s e Hs Hts He Hte), Ha, Hb.
  destruct m as [t|]; cbn [dateLe]; [|reflexivity].
  destruct (Z.leb_spec a t), (Z.leb_spec t b); try reflexivity; lia.
Qed.

Lemma C7_reversed_range_never_active_witness :
  t_2024_01_15 < t_2024_03_15
  /\ forall m : Date, isCircuitActive parseISODate itemReversed m = false.
Proof.
  split; [reflexivity|].
  apply (C7_reversed_range_never_active parseISODate itemReversed
           "2024-03-15" "2024-01-15" t_2024_03_15 t_2024_01_15);
    reflexivity.
Defined.

(** ** Items that add nothing *)

(** C6. An item without a start date adds nothing to any property of any
    of the 36 buckets, whatever the anchor and the other items: in either
    list, the output with the item is the output without it. *)
Theorem C6_no_start_date_no_contribution (tza : Z)
    (parse : string -> option Z) (c : Circuit) :
  truthy (contract_start_date c) = false ->
  forall (now : Z) (l1 l2 others : list Circuit),
    timelineData tza parse now (Some (l1 ++ c :: l2)) (Some others)
    = timelineData tza parse now (Some (l1 ++ l2)) (Some others)
    /\ timelineData tza parse now (Some others) (Some (l1 ++ c :: l2))
       = timelineData tza parse now (Some others) (Some (l1 ++ l2)).
Proof.
  intros H now l1 l2 others. split.
  - apply timelineData_remove_active. intros m md.
    apply accumulate_inactive, isCircuitActive_no_start, H.
  - apply timelineData_remove_proposed. intros m md.
    apply accumulate_inactive, isCircuitActive_no_start, H.
Qed.

Lemma C6_no_start_date_no_contribution_witness :
  truthy (contract_start_date itemNoStart) = false
  /\ timelineData 0 parseISODate t_2024_01_15
       (Some ([itemMpls] ++ itemNoStart :: [itemOpenEnded])) (Some [itemMpls])
     = timelineData 0 parseISODate t_2024_01_15
         (Some ([itemMpls] ++ [itemOpenEnded])) (Some [itemMpls]).
Proof.
  split; [reflexivity|].
  exact (proj1 (C6_no_start_date_no_contribution 0 parseISODate itemNoStart
                  eq_refl t_2024_01_15 [itemMpls] [itemOpenEnded]
                  [itemMpls])).
Defined.

Lemma isCircuitActive_unparsable (parse : string -> option Z) (c : Circuit) :
  unparsable parse (contract_start_date c)
  \/ unparsable parse (contract_end_date c) ->
  forall m : Date, isCircuitActive parse c m = false.
Proof.
  intros [(s & Hs & Ht & Hp) | (e & He & Ht & Hp)] m.
  - rewrite Hs in Ht. unfold isCircuitActive. rewrite Hs.
    destruct s as [|a s]; [reflexivity|].
    unfold newDateOfString. rewrite Hp.
    destruct (contract_end_date c) as [[|b e]|]; reflexivity.
  - rewrite He in Ht. unfold isCircuitActive. rewrite He.
    destruct (contract_start_date c) as [[|a s]|]; try reflexivity.
    destruct e as [|b e]; [discriminate|].
    unfold newDateOfString. rewrite Hp.
    cbn [dateLe]. destruct m; [apply andb_false_r | apply andb_false_r].
Qed.

(** C8. An item with a date string that the runtime cannot parse does not
    stop the computation: the result still has its 36 buckets, the item is
    inactive at every month anchor and adds nothing to any bucket.  Every
    function of the model is total, as the operations it stands for are:
    [new Date] of a string yields an Invalid Date and a comparison with it
    is false.  A date string is a present, non-empty string. *)
Theorem C8_unparsable_dates_are_inactive (tza : Z)
    (parse : string -> option Z) (c : Circuit) :
  unparsable parse (contract_start_date c)
  \/ unparsable parse (contract_end_date c) ->
  (forall m : Date, isCircuitActive parse c m = false)
  /\ forall (now : Z) (l1 l2 others : list Circuit),
       List.length (timelineData tza parse now (Some (l1 ++ c :: l2))
                      (Some others)) = 36%nat
       /\ List.length (timelineData tza parse now (Some others)
                         (Some (l1 ++ c :: l2))) = 36%nat
       /\ timelineData tza parse now (Some (l1 ++ c :: l2)) (Some others)
          = timelineData tza parse now (Some (l1 ++ l2)) (Some others)
       /\ timelineData tza parse now (Some others) (Some (l1 ++ c :: l2))
          = timelineData tza parse now (Some others) (Some (l1 ++ l2)).
Proof.
  intros H. pose proof (isCircuitActive_unparsable parse c H) as Hin.
  split; [exact Hin|]. intros now l1 l2 others.
  split; [apply timelineData_length|].
  split; [apply timelineData_length|]. split.
  - apply timelineData_remove_active. intros m md.
    apply accumulate_inactive, Hin.
  - apply timelineData_remove_proposed. intros m md.
    apply accumulate_inactive, Hin.
Qed.

Lemma C8_unparsable_dates_are_inactive_witness :
  (unparsable parseISODate (contract_start_date itemBadEnd)
   \/ unparsable parseISODate (contract_end_date itemBadEnd))
  /\ (forall m : Date, isCircuitActive parseISODate itemBadEnd m = false)
  /\ timelineData 0 parseISODate t_2024_01_15
       (Some ([] ++ itemBadEnd :: [itemMpls])) (Some [])
     = timelineData 0 parseISODate t_2024_01_15
         (Some ([] ++ [itemMpls])) (Some []).
Proof.
  assert (unparsable parseISODate (contract_start_date itemBadEnd)
          \/ unparsable parseISODate (contract_end_date itemBadEnd)) as H
    by (right; exists "15/03/2024"; repeat split; reflexivity).
  split; [exact H|].
  destruct (C8_unparsable_dates_are_inactive 0 parseISODate itemBadEnd H)
    as [Hin Hout].
  split; [exact Hin|].
  exact (proj1 (proj2 (proj2 (Hout t_2024_01_15 [] [itemMpls] [])))).
Defined.

(** C4. An item whose key, built from its type with the non-letters taken
    out, names none of the eight numeric properties adds nothing to any
    property of any bucket, active or not, and nothing is raised: in
    either list, the output with the item is the output without it.  In
    particular "Dedicated Internet Access" becomes
    "DedicatedInternetAccess", whose two keys name no property. *)
Theorem C4_unrecognized_type_is_dropped (tza : Z)
    (parse : string -> option Z) :
  (forall c : Circuit,
     recognized ("existing" ++ removeNonLetters (type c)) = false ->
     recognized ("proposed" ++ removeNonLetters (type c)) = false ->
     forall (now : Z) (l1 l2 others : list Circuit),
       timelineData tza parse now (Some (l1 ++ c :: l2)) (Some others)
       = timelineData tza parse now (Some (l1 ++ l2)) (Some others)
       /\ timelineData tza parse now (Some others) (Some (l1 ++ c :: l2))
          = timelineData tza parse now (Some others) (Some (l1 ++ l2)))
  /\ removeNonLetters "Dedicated Internet Access" = "DedicatedInternetAccess"
  /\ recognized ("existing" ++ "DedicatedInternetAccess") = false
  /\ recognized ("proposed" ++ "DedicatedInternetAccess") = false.
Proof.
  split; [|repeat split; reflexivity].
  intros c He Hp now l1 l2 others. split.
  - apply timelineData_remove_active. intros m md.
    apply accumulate_unrecognized, He.
  - apply timelineData_remove_proposed. intros m md.
    apply accumulate_unrecognized, Hp.
Qed.

Lemma C4_unrecognized_type_is_dropped_witness :
  recognized ("existing" ++ removeNonLetters (type itemDedicated)) = false
  /\ recognized ("proposed" ++ removeNonLetters (type itemDedicated)) = false
  /\ isCircuitActive parseISODate itemDedicated (Some t_2024_01_15) = true
  /\ timelineData 0 parseISODate t_2024_01_15
       (Some ([itemMpls] ++ itemDedicated :: [])) (Some [])
     = timelineData 0 parseISODate t_2024_01_15
         (Some ([itemMpls] ++ [])) (Some []).
Proof.
  split; [reflexivity|]. split; [reflexivity|]. split; [reflexivity|].
  exact (proj1 (proj1 (C4_unrecognized_type_is_dropped 0 parseISODate)
                  itemDedicated eq_refl eq_refl t_2024_01_15 [itemMpls] []
                  [])).
Defined.

(** ** Sums of costs *)

Lemma contribution_nonneg (parse : string -> option Z) (prefix : string)
    (m : Date) (f : Field) (c : Circuit) :
  0 <= monthlycost c -> 0 <= contribution parse prefix m f c.
Proof.
  intros H. unfold contribution.
  destruct (isCircuitActive parse c m); [|lia].
  destruct (fieldOfKey _) as [g|]; [|lia].
  destruct (Field_eq_dec f g); lia.
Qed.

Lemma total_nonneg (parse : string -> option Z) (prefix : string)
    (m : Date) (f : Field) (l : list Circuit) :
  Forall (fun c => 0 <= monthlycost c) l ->
  0 <= sumZ (map (contribution parse prefix m f) l).
Proof.
  intros H. apply sumZ_nonneg, Forall_map.
  eapply Forall_impl; [|exact H].
  intros c Hc. now apply contribution_nonneg.
Qed.

(** A step never lowers a property when the cost is not negative. *)
Lemma accumulate_increases (parse : string -> option Z) (prefix : string)
    (m : Date) (md : MonthData) (c : Circuit) (f : Field) :
  0 <= monthlycost c ->
  getField f md <= getField f (accumulate parse prefix m md c).
Proof.
  intros H. rewrite getField_accumulate.
  pose proof (contribution_nonneg parse prefix m f c H). lia.
Qed.

(** C9. When no item of either list has a negative monthly cost, each of
    the eight numeric properties of each of the 36 buckets is non-negative:
    a property starts at zero and is only changed by adding the cost of an
    item. *)
Theorem C9_totals_are_non_negative (tza : Z) (parse : string -> option Z)
    (now : Z) (active proposed : list Circuit) :
  Forall (fun c => 0 <= monthlycost c) active ->
  Forall (fun c => 0 <= monthlycost c) proposed ->
  List.length (timelineData tza parse now (Some active) (Some proposed))
  = 36%nat
  /\ Forall nonNegative
       (timelineData tza parse now (Some active) (Some proposed)).
Proof.
  intros Ha Hp. split; [apply timelineData_length|].
  rewrite timelineData_months. apply Forall_map, Forall_forall.
  intros i _ f. rewrite getField_monthEntry.
  pose proof (total_nonneg parse "existing"
                (monthDateOf tza (Some now) (Z.of_nat i)) f active Ha).
  pose proof (total_nonneg parse "proposed"
                (monthDateOf tza (Some now) (Z.of_nat i)) f proposed Hp).
  lia.
Qed.

Lemma C9_totals_are_non_negative_witness :
  Forall (fun c => 0 <= monthlycost c) [itemMpls; itemOpenEnded]
  /\ Forall (fun c => 0 <= monthlycost c) [itemReversed]
  /\ Forall nonNegative
       (timelineData 0 parseISODate t_2024_01_15
          (Some [itemMpls; itemOpenEnded]) (Some [itemReversed])).
Proof.
  assert (Forall (fun c => 0 <= monthlycost c) [itemMpls; itemOpenEnded])
    as Ha by (repeat constructor; cbn; lia).
  assert (Forall (fun c => 0 <= monthlycost c) [itemReversed])
    as Hp by (repeat constructor; cbn; lia).
  split; [exact Ha|]. split; [exact Hp|].
  exact (proj2 (C9_totals_are_non_negative 0 parseISODate t_2024_01_15
                  [itemMpls; itemOpenEnded] [itemReversed] Ha Hp)).
Defined.

(** ** The two passes keep to their own properties *)

Lemma fieldOfKey_existing (s : string) (g : Field) :
  fieldOfKey ("existing" ++ s) = Some g -> isExisting g = true.
Proof.
  unfold fieldOfKey, allFields. cbn.
  repeat match goal with
         | |- context [if ?b then _ else _] => destruct b
         end; intros H; inversion H; reflexivity.
Qed.

Lemma fieldOfKey_proposed (s : string) (g : Field) :
  fieldOfKey ("proposed" ++ s) = Some g -> isExisting g = false.
Proof.
  unfold fieldOfKey, allFields. cbn.
  repeat match goal with
         | |- context [if ?b then _ else _] => destruct b
         end; intros H; inversion H; reflexivity.
Qed.

Lemma contribution_existing (parse : string -> option Z) (m : Date)
    (f : Field) (c : Circuit) :
  isExisting f = false -> contribution parse "existing" m f c = 0.
Proof.
  intros Hf. unfold contribution.
  destruct (isCircuitActive parse c m); [|reflexivity].
  destruct (fieldOfKey _) as [g|] eqn:E; [|reflexivity].
  apply fieldOfKey_existing in E.
  destruct (Field_eq_dec f g) as [->|]; [congruence | reflexivity].
Qed.

Lemma contribution_proposed (parse : string -> option Z) (m : Date)
    (f : Field) (c : Circuit) :
  isExisting f = true -> contribution parse "proposed" m f c = 0.
Proof.
  intros Hf. unfold contribution.
  destruct (isCircuitActive parse c m); [|reflexivity].
  destruct (fieldOfKey _) as [g|] eqn:E; [|reflexivity].
  apply fieldOfKey_proposed in E.
  destruct (Field_eq_dec f g) as [->|]; [congruence | reflexivity].
Qed.

Lemma total_existing (parse : string -> option Z) (m : Date) (f : Field)
    (l : list Circuit) :
  isExisting f = false -> sumZ (map (contribution parse "existing" m f) l) = 0.
Proof.
  intros Hf. induction l as [|c l IH]; [reflexivity|].
  cbn [map]. change (sumZ (?x :: ?r)) with (x + sumZ r).
  rewrite IH, contribution_existing by exact Hf. reflexivity.
Qed.

Lemma total_proposed (parse : string -> option Z) (m : Date) (f : Field)
    (l : list Circuit) :
  isExisting f = true -> sumZ (map (contribution parse "proposed" m f) l) = 0.
Proof.
  intros Hf. induction l as [|c l IH]; [reflexivity|].
  cbn [map]. change (sumZ (?x :: ?r)) with (x + sumZ r).
  rewrite IH, contribution_proposed by exact Hf. reflexivity.
Qed.

Lemma existingPart_getField (md1 md2 : MonthData) :
  (forall f, isExisting f = true -> getField f md1 = getField f md2) ->
  existingPart md1 = existingPart md2.
Proof.
  intros H. unfold existingPart.
  pose proof (H ExistingMpls eq_refl). pose proof (H ExistingDia eq_refl).
  pose proof (H ExistingBroadband eq_refl). pose proof (H ExistingLte eq_refl).
  cbn [getField] in *. congruence.
Qed.

Lemma proposedPart_getField (md1 md2 : MonthData) :
  (forall f, isExisting f = false -> getField f md1 = getField f md2) ->
  proposedPart md1 = proposedPart md2.
Proof.
  intros H. unfold proposedPart.
  pose proof (H ProposedMpls eq_refl). pose proof (H ProposedDia eq_refl).
  pose proof (H ProposedBroadband eq_refl). pose proof (H ProposedLte eq_refl).
  cbn [getField] in *. congruence.
Qed.

(** C10. For every anchor the four [existing*] properties of every bucket
    are the same whatever the second list is, and the four [proposed*]
    properties are the same whatever the first list is; a step of the
    second pass leaves the [existing*] properties as they are, and a step
    of the first pass leaves the [proposed*] properties as they are. *)
Theorem C10_passes_are_framed (tza : Z) (parse : string -> option Z)
    (now : Z) :
  (forall active p1 p2 : list Circuit,
     map existingPart (timelineData tza parse now (Some active) (Some p1))
     = map existingPart (timelineData tza parse now (Some active) (Some p2)))
  /\ (forall a1 a2 proposed : list Circuit,
        map proposedPart (timelineData tza parse now (Some a1) (Some proposed))
        = map proposedPart
            (timelineData tza parse now (Some a2) (Some proposed)))
  /\ (forall (m : Date) (md : MonthData) (c : Circuit),
        existingPart (accumulate parse "proposed" m md c) = existingPart md)
  /\ (forall (m : Date) (md : MonthData) (c : Circuit),
        proposedPart (accumulate parse "existing" m md c) = proposedPart md).
Proof.
  repeat split.
  - intros active p1 p2. rewrite !timelineData_months, !map_map.
    apply map_ext. intros i. apply existingPart_getField. intros f Hf.
    rewrite !getField_monthEntry, !total_proposed by exact Hf. reflexivity.
  - intros a1 a2 proposed. rewrite !timelineData_months, !map_map.
    apply map_ext. intros i. apply proposedPart_getField. intros f Hf.
    rewrite !getField_monthEntry, !total_existing by exact Hf. reflexivity.
  - intros m md c. apply existingPart_getField. intros f Hf.
    rewrite getField_accumulate, contribution_proposed by exact Hf. lia.
  - intros m md c. apply proposedPart_getField. intros f Hf.
    rewrite getField_accumulate, contribution_existing by exact Hf. lia.
Qed.

(** ** The labels *)

Lemma toString_four_digits (y : Z) :
  1000 <= y <= 9999 -> String.length (toString y) = 4%nat.
Proof.
  intros H.
  assert (forallb (fun k => Nat.eqb (String.length
                                       (toString (1000 + Z.of_nat k))) 4)
            (seq 0 (Z.to_nat 9000)) = true) as Hall
    by (vm_compute; reflexivity).
  rewrite forallb_forall in Hall.
  specialize (Hall (Z.to_nat (y - 1000))).
  rewrite in_seq in Hall.
  replace (1000 + Z.of_nat (Z.to_nat (y - 1000))) with y in Hall by lia.
  apply Nat.eqb_eq, Hall. lia.
Qed.

(** C2. For every clock reading and every two lists the output has 36
    entries, and the label of entry [i] is the year, written in decimal,
    of the calendar month [i] months after the month of the anchor when
    that month is a January, and the empty string otherwise.  The year and
    month of the anchor are the local ones, as [getFullYear] and [getMonth]
    give them; a year between 1000 and 9999 is written with four digits
    ([toString_four_digits]). *)
Theorem C2_thirty_six_labelled_months (tza : Z) (parse : string -> option Z)
    (now : Z) (active proposed : list Circuit) :
  let out := timelineData tza parse now (Some active) (Some proposed) in
  let y := YearFromTime (now + tza) in
  let m := MonthFromTime (now + tza) in
  List.length out = 36%nat
  /\ forall i : nat, (i < 36)%nat ->
       option_map month (nth_error out i)
       = Some (if monthAfter m (Z.of_nat i) =? 0
               then toString (yearAfter y m (Z.of_nat i))
               else "").
Proof.
  intros out y m. split; [apply timelineData_length|].
  intros i Hi. subst out. rewrite timelineData_nth by exact Hi.
  cbn [option_map]. rewrite month_monthEntry. f_equal.
  apply monthLabel_valid.
Qed.

Lemma C2_thirty_six_labelled_months_witness :
  (12 < 36)%nat
  /\ option_map month
       (nth_error (timelineData 0 parseISODate t_2024_01_15
                     (Some [itemMpls]) (Some [])) 12)
     = Some "2025".
Proof.
  split; [lia|].
  exact (proj2 (C2_thirty_six_labelled_months 0 parseISODate t_2024_01_15
                  [itemMpls] []) 12%nat ltac:(lia)).
Defined.

(** ** An item that starts on a sampling date *)

Lemma monthTime_leb (tza now : Z) (i j : nat) :
  (monthTime tza now (Z.of_nat i) <=? monthTime tza now (Z.of_nat j))
  = (i <=? j)%nat.
Proof.
  destruct (Nat.leb_spec i j) as [H | H].
  - apply Z.leb_le, monthTime_le. lia.
  - apply Z.leb_gt, monthTime_lt. lia.
Qed.

Lemma fieldOfKey_typeName (s : string) (g : Field) :
  (fieldOfKey ("existing" ++ s) = Some g
   <-> isExisting g = true /\ s = typeName g)
  /\ (fieldOfKey ("proposed" ++ s) = Some g
      <-> isExisting g = false /\ s = typeName g).
Proof.
  split; split.
  - intros H. apply fieldOfKey_name in H.
    destruct g; cbn in H; inversion H; split; reflexivity.
  - intros [Hg ->]. destruct g; try discriminate; reflexivity.
  - intros H. apply fieldOfKey_name in H.
    destruct g; cbn in H; inversion H; split; reflexivity.
  - intros [Hg ->]. destruct g; try discriminate; reflexivity.
Qed.

Lemma contribution_counted (parse : string -> option Z) (m : Date)
    (f : Field) (c : Circuit) :
  contribution parse (if isExisting f then "existing" else "proposed") m f c
  = if counted parse m f c then monthlycost c else 0.
Proof.
  unfold contribution, counted.
  destruct (isCircuitActive parse c m); [|reflexivity]. cbn [andb].
  destruct (String.eqb_spec (removeNonLetters (type c)) (typeName f))
    as [E | N].
  - destruct (isExisting f) eqn:Hf.
    + rewrite (proj2 (proj1 (fieldOfKey_typeName _ f)) (conj Hf E)).
      destruct (Field_eq_dec f f); [reflexivity | contradiction].
    + rewrite (proj2 (proj2 (fieldOfKey_typeName _ f)) (conj Hf E)).
      destruct (Field_eq_dec f f); [reflexivity | contradiction].
  - destruct (isExisting f) eqn:Hf.
    + destruct (fieldOfKey _) as [g|] eqn:Eg; [|reflexivity].
      destruct (Field_eq_dec f g) as [<-|]; [|reflexivity].
      apply (proj1 (fieldOfKey_typeName _ f)) in Eg. tauto.
    + destruct (fieldOfKey _) as [g|] eqn:Eg; [|reflexivity].
      destruct (Field_eq_dec f g) as [<-|]; [|reflexivity].
      apply (proj2 (fieldOfKey_typeName _ f)) in Eg. tauto.
Qed.

(** A pass adds the counted costs to a property of its own group one after
    the other, in the order of the list. *)
Lemma getField_pass_in_order (parse : string -> option Z) (m : Date)
    (f : Field) (l : list Circuit) (md : MonthData) :
  getField f
    (fold_left
       (accumulate parse (if isExisting f then "existing" else "proposed") m)
       l md)
  = fold_left Z.add (addends parse m f l) (getField f md).
Proof.
  revert md; induction l as [|c l IH]; intros md; [reflexivity|].
  cbn [fold_left]. rewrite IH, getField_accumulate, contribution_counted.
  unfold addends. cbn [filter].
  destruct (counted parse m f c); cbn [map fold_left];
    [reflexivity | now rewrite Z.add_0_r].
Qed.

Lemma bucketField_in_order (tza : Z) (parse : string -> option Z) (now : Z)
    (active proposed : list Circuit) (f : Field) (j : nat) :
  (j < 36)%nat ->
  bucketField f (timelineData tza parse now (Some active) (Some proposed)) j
  = Some (runningTotal
            (addends parse (monthDateOf tza (Some now) (Z.of_nat j)) f
               (ownList f active proposed))).
Proof.
  intros Hj. unfold bucketField. rewrite timelineData_nth by exact Hj.
  cbn [option_map]. f_equal. unfold monthEntry, runningTotal, ownList.
  set (m := monthDateOf tza (Some now) (Z.of_nat j)).
  set (init := mkMonthData _ 0 0 0 0 0 0 0 0).
  assert (getField f init = 0) as H0 by (destruct f; reflexivity).
  destruct (isExisting f) eqn:Hf.
  - rewrite getField_pass, total_proposed, Z.add_0_r by exact Hf.
    pose proof (getField_pass_in_order parse m f active init) as H.
    rewrite Hf, H0 in H. exact H.
  - pose proof (getField_pass_in_order parse m f proposed
                  (fold_left (accumulate parse "existing" m) active init))
      as H.
    rewrite Hf in H. rewrite H. f_equal.
    rewrite getField_pass, total_existing, H0 by exact Hf. reflexivity.
Qed.

Lemma addends_insert (parse : string -> option Z) (m : Date) (f : Field)
    (c : Circuit) (l1 l2 : list Circuit) :
  addends parse m f (l1 ++ c :: l2)
  = addends parse m f l1
    ++ (if counted parse m f c then [monthlycost c] else [])
    ++ addends parse m f l2.
Proof.
  unfold addends. rewrite filter_app, map_app. cbn [filter].
  destruct (counted parse m f c); reflexivity.
Qed.

Lemma addends_app (parse : string -> option Z) (m : Date) (f : Field)
    (l1 l2 : list Circuit) :
  addends parse m f (l1 ++ l2) = addends parse m f l1 ++ addends parse m f l2.
Proof. unfold addends. now rewrite filter_app, map_app. Qed.

Lemma counted_open_ended (tza : Z) (parse : string -> option Z) (now : Z)
    (c : Circuit) (s : string) (i j : nat) (f : Field) :
  contract_start_date c = Some s -> truthy (Some s) = true ->
  newDateOfString parse s = monthDateOf tza (Some now) (Z.of_nat i) ->
  truthy (contract_end_date c) = false ->
  removeNonLetters (type c) = typeName f ->
  counted parse (monthDateOf tza (Some now) (Z.of_nat j)) f c = (i <=? j)%nat.
Proof.
  intros Hs Ht Hp He Hn. unfold counted.
  rewrite (isCircuitActive_open parse c _ s Hs Ht He), Hp, Hn.
  rewrite !monthDateOf_valid. cbn [dateLe].
  rewrite monthTime_leb, String.eqb_refl. apply andb_true_r.
Qed.

(** C5. Take an item whose start date is the sampling date of month [i],
    that has no end date, and whose key names the property [f].  A
    property of a bucket starts at 0 and has the costs of the counted
    items of its list added to it one after the other, in the order of the
    list.  In the bucket at every index [j >= i] the item's monthly cost
    is among these addends exactly once, at the item's place in the list,
    between the addends of the items before it and those of the items
    after it; in the bucket at every index [j < i] it is not among them,
    and the addends are those of the list without the item.  This holds in
    the first list with the "existing" key and in the second list with the
    "proposed" key. *)
Theorem C5_open_ended_item (tza : Z) (parse : string -> option Z) (now : Z)
    (c : Circuit) (s : string) (i : nat) :
  contract_start_date c = Some s -> truthy (Some s) = true ->
  newDateOfString parse s = monthDateOf tza (Some now) (Z.of_nat i) ->
  truthy (contract_end_date c) = false ->
  forall (f : Field) (l1 l2 others : list Circuit) (j : nat),
    (j < 36)%nat ->
    let m := monthDateOf tza (Some now) (Z.of_nat j) in
    let own := if (i <=? j)%nat then [monthlycost c] else [] in
    (fieldOfKey ("existing" ++ removeNonLetters (type c)) = Some f ->
     bucketField f (timelineData tza parse now (Some (l1 ++ c :: l2))
                      (Some others)) j
     = Some (runningTotal
               (addends parse m f l1 ++ own ++ addends parse m f l2))
     /\ bucketField f (timelineData tza parse now (Some (l1 ++ l2))
                         (Some others)) j
        = Some (runningTotal (addends parse m f l1 ++ addends parse m f l2)))
    /\ (fieldOfKey ("proposed" ++ removeNonLetters (type c)) = Some f ->
        bucketField f (timelineData tza parse now (Some others)
                         (Some (l1 ++ c :: l2))) j
        = Some (runningTotal
                  (addends parse m f l1 ++ own ++ addends parse m f l2))
        /\ bucketField f (timelineData tza parse now (Some others)
                            (Some (l1 ++ l2))) j
           = Some (runningTotal
                     (addends parse m f l1 ++ addends parse m f l2))).
Proof.
  intros Hs Ht Hp He f l1 l2 others j Hj m own.
  rewrite !bucketField_in_order by exact Hj. fold m. unfold ownList.
  split; intros Hf.
  - apply (proj1 (fieldOfKey_typeName _ f)) in Hf as [Hg Hn].
    rewrite Hg, addends_insert, addends_app. subst m own.
    rewrite (counted_open_ended tza parse now c s i j f Hs Ht Hp He Hn).
    split; reflexivity.
  - apply (proj2 (fieldOfKey_typeName _ f)) in Hf as [Hg Hn].
    rewrite Hg, addends_insert, addends_app. subst m own.
    rewrite (counted_open_ended tza parse now c s i j f Hs Ht Hp He Hn).
    split; reflexivity.
Qed.

Lemma C5_open_ended_item_witness :
  newDateOfString parseISODate "2024-03-15"
  = monthDateOf 0 (Some t_2024_01_15) (Z.of_nat 2)
  /\ bucketField ExistingBroadband
       (timelineData 0 parseISODate t_2024_01_15
          (Some ([itemMpls] ++ itemOpenEnded :: [itemOpenEnded]))
          (Some [])) 5
     = Some (runningTotal
               (addends parseISODate
                  (monthDateOf 0 (Some t_2024_01_15) (Z.of_nat 5))
                  ExistingBroadband [itemMpls]
                ++ (if (2 <=? 5)%nat then [monthlycost itemOpenEnded] else [])
                ++ addends parseISODate
                     (monthDateOf 0 (Some t_2024_01_15) (Z.of_nat 5))
                     ExistingBroadband [itemOpenEnded])).
Proof.
  assert (newDateOfString parseISODate "2024-03-15"
          = monthDateOf 0 (Some t_2024_01_15) (Z.of_nat 2)) as Hp
    by (vm_compute; reflexivity).
  split; [exact Hp|].
  exact (proj1 (proj1 (C5_open_ended_item 0 parseISODate t_2024_01_15
                         itemOpenEnded "2024-03-15" 2 eq_refl eq_refl Hp
                         eq_refl ExistingBroadband [itemMpls] [itemOpenEnded]
                         [] 5%nat ltac:(lia))
                 eq_refl)).
Defined.

(** ** The worked example *)

(** C1. The item of the example has type "MPLS".  Its key is
    "existingMPLS", which is not a property of the month's object (the
    property is "existingMpls"), so the [in] test fails and the item is
    dropped: with the anchor at midnight UTC of 2024-01-15 the item is
    active at the sampling dates of buckets 0, 1 and 2 and inactive at the
    one of bucket 3, yet [existingMpls] is 0 in all 36 buckets; and for
    every anchor, in any list, the output with the item is the output
    without it. *)
Theorem C1_MPLS_item_is_dropped :
  map (fun i => isCircuitActive parseISODate itemMPLS
                  (monthDateOf 0 (Some t_2024_01_15) i)) [0; 1; 2; 3]
  = [true; true; true; false]
  /\ keyIn ("existing" ++ removeNonLetters (type itemMPLS)) = false
  /\ map existingMpls
       (timelineData 0 parseISODate t_2024_01_15 (Some [itemMPLS]) (Some []))
     = repeat 0 36
  /\ forall (tza : Z) (parse : string -> option Z) (now : Z)
       (l1 l2 others : list Circuit),
       timelineData tza parse now (Some (l1 ++ itemMPLS :: l2)) (Some others)
       = timelineData tza parse now (Some (l1 ++ l2)) (Some others).
Proof.
  split; [vm_compute; reflexivity|].
  split; [vm_compute; reflexivity|].
  split; [vm_compute; reflexivity|].
  intros tza parse now l1 l2 others.
  apply timelineData_remove_active. intros m md.
  apply accumulate_unrecognized. reflexivity.
Qed.

(** The same item with its type spelt "Mpls" is counted in buckets 0, 1
    and 2 and in no later bucket. *)
Lemma Mpls_item_is_counted :
  map existingMpls
    (timelineData 0 parseISODate t_2024_01_15 (Some [itemMpls]) (Some []))
  = [100; 100; 100] ++ repeat 0 33.
Proof. vm_compute. reflexivity. Qed.

(** ** What each bucket holds *)



(** ** Which types are counted *)

(** X2. For either prefix the [in] test on the key succeeds exactly when
    the type, with its non-letters taken out, is spelt "Mpls", "Dia",
    "Broadband" or "Lte", letter case included. *)
Theorem counted_types_are_four_spellings (ty : string) :
  keyIn ("existing" ++ removeNonLetters ty)
  = existsb (String.eqb (removeNonLetters ty)) typeNames
  /\ keyIn ("proposed" ++ removeNonLetters ty)
     = existsb (String.eqb (removeNonLetters ty)) typeNames.
Proof.
  generalize (removeNonLetters ty). intros s.
  unfold keyIn, ownKeys, prototypeKeys, allFields, typeNames.
  cbn [map app existsb fieldName].
  split; cbn; rewrite ?orb_false_r; reflexivity.
Qed.

Lemma removeNonLetters_letters (s : string) :
  allLetters (removeNonLetters s) = true.
Proof.
  unfold allLetters. induction s as [|c s IH]; [reflexivity|].
  cbn [removeNonLetters]. destruct (isLetter c) eqn:E; [|exact IH].
  cbn [list_ascii_of_string forallb]. now rewrite E.
Qed.

Lemma removeNonLetters_fixed (s : string) :
  allLetters s = true -> removeNonLetters s = s.
Proof.
  unfold allLetters. induction s as [|c s IH]; [reflexivity|].
  cbn [list_ascii_of_string forallb removeNonLetters].
  intros H. apply andb_true_iff in H as [Hc Hs].
  rewrite Hc, IH by exact Hs. reflexivity.
Qed.

Lemma removeNonLetters_app (a b : string) :
  removeNonLetters (a ++ b)%string
  = (removeNonLetters a ++ removeNonLetters b)%string.
Proof.
  induction a as [|c a IH]; [reflexivity|].
  cbn [append removeNonLetters]. destruct (isLetter c); [|exact IH].
  cbn [append]. now rewrite IH.
Qed.

(** X13. The replacement that builds the key leaves only letters, does
    nothing when applied twice, works through a concatenation part by
    part, and leaves a string of letters as it is. *)
Theorem removeNonLetters_keeps_exactly_the_letters (s t : string) :
  allLetters (removeNonLetters s) = true
  /\ removeNonLetters (removeNonLetters s) = removeNonLetters s
  /\ removeNonLetters (s ++ t)%string
     = (removeNonLetters s ++ removeNonLetters t)%string
  /\ (allLetters s = true -> removeNonLetters s = s).
Proof.
  split; [apply removeNonLetters_letters|].
  split; [apply removeNonLetters_fixed, removeNonLetters_letters|].
  split; [apply removeNonLetters_app | apply removeNonLetters_fixed].
Qed.

(** ** The queries *)

Lemma promiseAll_None {A : Type} (l : list (option A)) :
  promiseAll l = None <-> In None l.
Proof.
  induction l as [|[x|] l IH]; cbn [promiseAll In].
  - split; [discriminate | contradiction].
  - destruct (promiseAll l); cbn [option_map].
    + split; [discriminate|]. intros [H | H]; [discriminate|].
      apply IH in H. discriminate.
    + split; [intros _; right; now apply IH | reflexivity].
  - split; [auto | reflexivity].
Qed.

Lemma promiseAll_Some {A B : Type} (fetch : A -> option B) (g : A -> B)
    (l : list A) :
  (forall x, In x l -> fetch x = Some (g x)) ->
  promiseAll (map fetch l) = Some (map g l).
Proof.
  induction l as [|x l IH]; intros H; [reflexivity|].
  cbn [map promiseAll]. rewrite (H x (or_introl eq_refl)).
  rewrite IH by (intros y Hy; apply H; now right). reflexivity.
Qed.

(** X12. The query function is rejected exactly when the fetch of one of
    the locations is rejected; when all succeed it yields the circuits of
    all locations, in the order of the locations (the empty list for no
    location). *)
Theorem queryFn_all_or_nothing (Location : Type)
    (fetch : Location -> option (list Circuit)) (locations : list Location) :
  (queryFn Location fetch locations = None
   <-> exists loc, In loc locations /\ fetch loc = None)
  /\ forall g : Location -> list Circuit,
       (forall loc, In loc locations -> fetch loc = Some (g loc)) ->
       queryFn Location fetch locations
       = Some (List.concat (map g locations)).
Proof.
  split.
  - destruct locations as [|l0 ls].
    + cbn. split; [discriminate | intros (loc & [] & _)].
    + unfold queryFn.
      destruct (promiseAll (map fetch (l0 :: ls))) as [r|] eqn:E.
      * cbn [option_map]. split; [discriminate|].
        intros (loc & Hin & Hf).
        assert (promiseAll (map fetch (l0 :: ls)) = None) as HN
          by (apply promiseAll_None; rewrite <- Hf; now apply in_map).
        congruence.
      * split; [intros _ | reflexivity].
        apply promiseAll_None, in_map_iff in E as (loc & Hf & Hin).
        exists loc. auto.
  - intros g Hg. destruct locations as [|l0 ls]; [reflexivity|].
    unfold queryFn. rewrite (promiseAll_Some fetch g) by exact Hg.
    reflexivity.
Qed.

(** ** The data *)

(** X9. The computed data is the empty array exactly when one of the two
    queries has no data; it has never another length than 0 or 36. *)
Theorem timelineData_empty_iff_no_data (tza : Z)
    (parse : string -> option Z) (now : Z)
    (activeData proposedData : option (list Circuit)) :
  (timelineData tza parse now activeData proposedData = []
   <-> activeData = None \/ proposedData = None)
  /\ (List.length (timelineData tza parse now activeData proposedData)
      = 0%nat
      \/ List.length (timelineData tza parse now activeData proposedData)
         = 36%nat).
Proof.
  destruct activeData as [a|], proposedData as [p|].
  - pose proof (timelineData_length tza parse now a p) as HL. split.
    + split; [intros H; rewrite H in HL; discriminate|].
      intros [H | H]; discriminate.
    + now right.
  - split; [split; auto | now left].
  - split; [split; auto | now left].
  - split; [split; auto | now left].
Qed.

(** ** The sampling dates *)

Lemma TimeWithinDay_MakeDate (day time : Z) :
  0 <= time < msPerDay -> TimeWithinDay (MakeDate day time) = time.
Proof. intros H. unfold TimeWithinDay, MakeDate, msPerDay in *. divlia. Qed.

Lemma MakeDate_Day (t : Z) : MakeDate (Day t) (TimeWithinDay t) = t.
Proof. unfold MakeDate, Day, TimeWithinDay, msPerDay. divlia. Qed.

(** The year, month and day of the month of day [k] of year [ym], when
    [k] lies within month [mn]. *)
Lemma decompose_day (ym mn k time : Z) :
  let leap := if isLeapYear ym then 1 else 0 in
  let t := MakeDate (DayFromYear ym + k) time in
  0 <= mn <= 11 ->
  monthStart mn leap <= k < monthStart (mn + 1) leap ->
  0 <= time < msPerDay ->
  YearFromTime t = ym
  /\ MonthFromTime t = mn
  /\ DateFromTime t = k - monthStart mn leap + 1.
Proof.
  intros leap t Hm Hk Ht.
  assert (0 <= leap <= 1) as Hl
    by (subst leap; destruct (isLeapYear ym); lia).
  assert (0 <= k < 365 + leap) as Hk'.
  { clear t. assert (leap = 0 \/ leap = 1) as [E | E] by lia; rewrite E in *;
      month_cases mn C; subst mn; cbn in Hk; lia. }
  assert (YearFromTime t = ym) as Hy.
  { unfold YearFromTime. subst t. rewrite Day_MakeDate by exact Ht.
    apply YearFromDay_unique. rewrite DayFromYear_succ, DaysInYear_leap.
    fold leap. lia. }
  split; [exact Hy|].
  assert (MonthFromTime t = mn) as HM.
  { unfold MonthFromTime, InLeapYear, DayWithinYear. rewrite Hy. fold leap.
    subst t. rewrite Day_MakeDate by exact Ht.
    replace (DayFromYear ym + k - DayFromYear ym) with k by lia.
    clear Hy Hk'. assert (leap = 0 \/ leap = 1) as [E | E] by lia;
      rewrite E in *; clear E;
      month_cases mn C; subst mn; cbn in Hk;
      repeat match goal with
             | |- context [if ?a <? ?b then _ else _] =>
                 destruct (Z.ltb_spec a b)
             end; lia. }
  split; [exact HM|].
  unfold DateFromTime, InLeapYear, DayWithinYear. rewrite HM, Hy. fold leap.
  subst t. rewrite Day_MakeDate by exact Ht. lia.
Qed.

(** [setMonth] on a valid date, through the local date and time it sets. *)
Lemma setMonth_setMonthLocal (tza t mo : Z) :
  setMonth tza (Some t) (Some mo)
  = Some (UTC tza (setMonthLocal (LocalTime tza t) mo)).
Proof. unfold setMonth, setMonthLocal. reflexivity. Qed.

(** X5. For bucket 0 the month is set to the month the date already has:
    the local date and time [setMonth] sets is then the local date and
    time the date had.  (The conversion of that local time back to a time
    value is the runtime's and is not part of this statement.) *)
Theorem own_month_sets_the_same_local_time (lt : Z) :
  setMonthLocal lt (MonthFromTime lt + 0) = lt.
Proof.
  unfold setMonthLocal.
  pose proof (MonthFromTime_bounds lt) as Hm.
  rewrite Z.add_0_r. unfold MakeDay.
  replace (MonthFromTime lt / 12) with 0 by divlia.
  replace (MonthFromTime lt mod 12) with (MonthFromTime lt) by divlia.
  rewrite Z.add_0_r. unfold DateFromTime, InLeapYear, DayWithinYear.
  replace (DayFromYear (YearFromTime lt)
           + monthStart (MonthFromTime lt)
               (if isLeapYear (YearFromTime lt) then 1 else 0)
           + (Day lt - DayFromYear (YearFromTime lt)
              - monthStart (MonthFromTime lt)
                  (if isLeapYear (YearFromTime lt) then 1 else 0) + 1) - 1)
    with (Day lt) by lia.
  apply MakeDate_Day.
Qed.

Lemma daysInMonth_bounds (y m : Z) :
  0 <= m <= 11 -> 28 <= daysInMonth y m <= 31.
Proof.
  intros Hm. unfold daysInMonth.
  destruct (isLeapYear y); month_cases m C; subst m; cbn; lia.
Qed.

Lemma MakeDay_succ (year mo date : Z) :
  MakeDay year (mo + 1) date
  = MakeDay year mo date + daysInMonth (year + mo / 12) (mo mod 12).
Proof.
  unfold MakeDay, daysInMonth.
  destruct (Z.eq_dec (mo mod 12) 11) as [E | N].
  - replace ((mo + 1) / 12) with (mo / 12 + 1) by divlia.
    replace ((mo + 1) mod 12) with 0 by divlia.
    rewrite E, Z.add_assoc, DayFromYear_succ, DaysInYear_leap.
    destruct (isLeapYear (year + mo / 12));
      destruct (isLeapYear (year + mo / 12 + 1)); cbn; lia.
  - replace ((mo + 1) / 12) with (mo / 12) by divlia.
    replace ((mo + 1) mod 12) with (mo mod 12 + 1) by divlia.
    lia.
Qed.

(** X6. The local dates and times [setMonth] sets for two consecutive
    buckets [i] and [i + 1], from the local time [lt] of the anchor, are
    apart by the length of the calendar month [i] months after the
    anchor's month, that is by 28 to 31 whole days of local time.  (The
    time values the runtime converts them to can differ from that by the
    shift of a clock change.) *)
Theorem local_times_set_are_a_month_apart (lt : Z) (i : nat) :
  let y := YearFromTime lt in
  let m := MonthFromTime lt in
  let days := daysInMonth (yearAfter y m (Z.of_nat i))
                          (monthAfter m (Z.of_nat i)) in
  setMonthLocal lt (m + (Z.of_nat i + 1)) - setMonthLocal lt (m + Z.of_nat i)
  = days * msPerDay
  /\ 28 <= days <= 31.
Proof.
  intros y m days. split.
  - unfold setMonthLocal, MakeDate. fold y m.
    rewrite Z.add_assoc, MakeDay_succ. subst days.
    unfold yearAfter, monthAfter. lia.
  - subst days. apply daysInMonth_bounds. unfold monthAfter. divlia.
Qed.

(** X7. The local date and time [setMonth] sets for bucket [i], from the
    local time [lt] of the anchor, has the time of day of [lt] and lies in
    the year of the month [i] months after the month of [lt].  When the
    day of the month of [lt] exists in that month it is that day of that
    month; otherwise it rolls over to the following month, by the days
    that are missing.  (The statement is about the local date and time
    set, before the runtime converts it back to a time value.) *)
Theorem local_time_set_keeps_day_or_rolls_over (lt : Z) (i : nat) :
  let y := YearFromTime lt in
  let m := MonthFromTime lt in
  let d := DateFromTime lt in
  let ym := yearAfter y m (Z.of_nat i) in
  let mn := monthAfter m (Z.of_nat i) in
  let len := daysInMonth ym mn in
  let s := setMonthLocal lt (m + Z.of_nat i) in
  TimeWithinDay s = TimeWithinDay lt
  /\ YearFromTime s = ym
  /\ (if d <=? len
      then MonthFromTime s = mn /\ DateFromTime s = d
      else MonthFromTime s = mn + 1 /\ DateFromTime s = d - len).
Proof.
  intros y m d ym mn len s. subst s. unfold setMonthLocal. fold y m d.
  set (tod := TimeWithinDay lt).
  pose proof (TimeWithinDay_bounds lt) as Ht. fold tod in Ht.
  pose proof (DateFromTime_bounds lt) as Hd. fold d in Hd.
  split; [apply TimeWithinDay_MakeDate, Ht|].
  assert (0 <= mn <= 11) as Hmn by (subst mn; unfold monthAfter; divlia).
  unfold MakeDay. fold (yearAfter y m (Z.of_nat i)) (monthAfter m (Z.of_nat i)).
  fold ym mn.
  set (leap := if isLeapYear ym then 1 else 0).
  assert (len = monthStart (mn + 1) leap - monthStart mn leap) as Hlen
    by reflexivity.
  assert (leap = 0 \/ leap = 1) as Hl
    by (subst leap; destruct (isLeapYear ym); lia).
  replace (DayFromYear ym + monthStart mn leap + d - 1)
    with (DayFromYear ym + (monthStart mn leap + d - 1)) by lia.
  destruct (Z.leb_spec d len) as [Hfit | Hover].
  - destruct (decompose_day ym mn (monthStart mn leap + d - 1) tod)
      as (Hy & HM & HD); [exact Hmn | fold leap; lia | exact Ht |].
    fold leap in HD. split; [exact Hy|]. split; [exact HM | lia].
  - assert (mn <= 10 /\ monthStart (mn + 1) leap + (d - len) - 1
                        < monthStart (mn + 1 + 1) leap) as [Hm10 Hnext].
    { clearbody len leap mn. destruct Hl as [-> | ->];
        month_cases mn C; subst mn; cbn in Hlen;
        repeat match goal with
               | |- context [monthStart ?a ?l] =>
                   let v := eval vm_compute in (monthStart a l) in
                   change (monthStart a l) with v
               end; lia. }
    destruct (decompose_day ym (mn + 1) (monthStart mn leap + d - 1) tod)
      as (Hy & HM & HD); [lia | fold leap; lia | exact Ht |].
    fold leap in HD. split; [exact Hy|]. split; [exact HM | lia].
Qed.

(** ** The buckets an item is active in *)

(** X3. An item that starts on the sampling date of bucket [i] and ends
    on the sampling date of bucket [k] is active at the sampling date of
    bucket [j] exactly when [i <= j <= k]. *)
Theorem closed_range_item_is_active_in_its_window
    (tza : Z) (parse : string -> option Z) (now : Z) (c : Circuit)
    (s e : string) (i k : nat) :
  contract_start_date c = Some s -> truthy (Some s) = true ->
  contract_end_date c = Some e -> truthy (Some e) = true ->
  newDateOfString parse s = monthDateOf tza (Some now) (Z.of_nat i) ->
  newDateOfString parse e = monthDateOf tza (Some now) (Z.of_nat k) ->
  forall j : nat,
    isCircuitActive parse c (monthDateOf tza (Some now) (Z.of_nat j))
    = (i <=? j)%nat && (j <=? k)%nat.
Proof.
  intros Hs Hts He Hte Hps Hpe j.
  rewrite (isCircuitActive_closed parse c _ s e Hs Hts He Hte), Hps, Hpe.
  rewrite !monthDateOf_valid. cbn [dateLe]. now rewrite !monthTime_leb.
Qed.

Lemma isCircuitActive_between (parse : string -> option Z) (c : Circuit)
    (t1 t2 t3 : Z) :
  t1 <= t2 <= t3 ->
  isCircuitActive parse c (Some t1) = true ->
  isCircuitActive parse c (Some t3) = true ->
  isCircuitActive parse c (Some t2) = true.
Proof.
  intros Ht. unfold isCircuitActive, newDateOfString.
  destruct (contract_start_date c) as [[|a s]|]; try discriminate.
  destruct (parse (String a s)) as [x|];
    destruct (contract_end_date c) as [[|b e]|];
    try destruct (parse (String b e)) as [z|];
    cbn [dateLe]; rewrite ?andb_true_iff, ?Z.leb_le;
    try discriminate; try lia; intros H1 H3;
    try (destruct H1; discriminate).
Qed.

(** X4. The buckets at which an item is active are contiguous: active at
    buckets [i] and [k], it is active at every bucket in between. *)
Theorem active_buckets_are_contiguous (tza : Z)
    (parse : string -> option Z) (now : Z) (c : Circuit) (i j k : nat) :
  (i <= j <= k)%nat ->
  isCircuitActive parse c (monthDateOf tza (Some now) (Z.of_nat i)) = true ->
  isCircuitActive parse c (monthDateOf tza (Some now) (Z.of_nat k)) = true ->
  isCircuitActive parse c (monthDateOf tza (Some now) (Z.of_nat j)) = true.
Proof.
  intros Hijk. rewrite !monthDateOf_valid.
  apply isCircuitActive_between. split; apply monthTime_le; lia.
Qed.

(** ** The labels that are shown *)

Lemma toString_not_empty (n : Z) : toString n <> "".
Proof.
  unfold toString, NilZero.string_of_int.
  destruct (Z.to_int n) as [d | d]; [|discriminate].
  destruct d; cbn; discriminate.
Qed.

Lemma filter_labels {A : Type} (b : A -> bool) (h : A -> string)
    (l : list A) :
  (forall x, h x <> "") ->
  filter (fun s => negb (String.eqb s ""))
         (map (fun x => if b x then h x else "") l)
  = map h (filter b l).
Proof.
  intros Hh. induction l as [|x l IH]; [reflexivity|].
  cbn [map filter]. destruct (b x).
  - destruct (String.eqb_spec (h x) "") as [E | _];
      [now apply Hh in E|]. cbn [negb map]. now rewrite IH.
  - cbn. exact IH.
Qed.

Lemma januaries (h : Z -> string) (m : Z) :
  0 <= m <= 11 ->
  map (fun i : nat => h ((m + Z.of_nat i) / 12))
      (filter (fun i : nat => (m + Z.of_nat i) mod 12 =? 0) (seq 0 36))
  = map h (let k := if m =? 0 then 0 else 1 in [k; k + 1; k + 2]).
Proof.
  intros Hm. month_cases m C; subst m; vm_compute; reflexivity.
Qed.

(** X8. Exactly three labels are not empty, and they are three
    consecutive years: the year of the anchor when the anchor is in
    January, the following year otherwise, and the two years after it. *)
Theorem three_consecutive_years_are_shown (tza : Z)
    (parse : string -> option Z) (now : Z) (active proposed : list Circuit) :
  let y := YearFromTime (now + tza) in
  let m := MonthFromTime (now + tza) in
  let first := if m =? 0 then y else y + 1 in
  shownLabels (timelineData tza parse now (Some active) (Some proposed))
  = [toString first; toString (first + 1); toString (first + 2)].
Proof.
  intros y m first. unfold shownLabels.
  rewrite timelineData_months, map_map.
  rewrite (map_ext _ (fun i : nat =>
             if (m + Z.of_nat i) mod 12 =? 0
             then toString (y + (m + Z.of_nat i) / 12) else ""))
    by (intros i; rewrite month_monthEntry; apply monthLabel_valid).
  rewrite (filter_labels (fun i : nat => (m + Z.of_nat i) mod 12 =? 0)
             (fun i : nat => toString (y + (m + Z.of_nat i) / 12)))
    by (intros i; apply toString_not_empty).
  rewrite (januaries (fun k => toString (y + k)) m)
    by apply MonthFromTime_bounds.
  subst first. destruct (m =? 0); cbv zeta; cbn [map];
    repeat (apply f_equal2; [apply f_equal; lia|]); reflexivity.
Qed.

(** ** The tooltip *)

Lemma getProperty_index (md : MonthData) :
  getProperty md "index" = VUndefined.
Proof. reflexivity. Qed.

(** X14. The tooltip's label formatter yields the empty string when the
    payload, its first entry or the entry's month object is missing, and
    "Invalid Date" otherwise, whatever the clock reading: a month object
    has no property [index], so the month the date is set to is NaN. *)
Theorem labelFormatter_shows_no_month (tza : Z) (formatMonthYear : Z -> string)
    (now : Z) (label : string) (payload : option (list TooltipItem)) :
  labelFormatter tza formatMonthYear now label payload
  = match payload with
    | Some (item :: _) =>
        match item_payload item with
        | Some _ => "Invalid Date"
        | None => ""
        end
    | _ => ""
    end.
Proof.
  destruct payload as [[|item rest]|]; [reflexivity | | reflexivity].
  unfold labelFormatter. destruct (item_payload item) as [md|];
    [|reflexivity].
  rewrite getProperty_index. reflexivity.
Qed.

(** ** Instances of the properties above *)


Lemma removeNonLetters_keeps_exactly_the_letters_witness :
  allLetters "Broadband" = true
  /\ removeNonLetters "Broadband" = "Broadband".
Proof.
  split; [reflexivity|].
  exact (proj2 (proj2 (proj2
           (removeNonLetters_keeps_exactly_the_letters "Broadband" "")))
           eq_refl).
Defined.

Lemma queryFn_all_or_nothing_witness :
  (forall loc : bool, In loc [true; false] ->
     exampleFetch loc = Some (exampleCircuits loc))
  /\ queryFn bool exampleFetch [true; false]
     = Some (List.concat (map exampleCircuits [true; false])).
Proof.
  assert (forall loc : bool, In loc [true; false] ->
            exampleFetch loc = Some (exampleCircuits loc)) as H
    by (intros [|] _; reflexivity).
  split; [exact H|].
  exact (proj2 (queryFn_all_or_nothing bool exampleFetch [true; false])
           exampleCircuits H).
Defined.

Lemma timelineData_empty_iff_no_data_witness :
  (@None (list Circuit) = None \/ Some [itemMpls] = None)
  /\ timelineData 0 parseISODate t_2024_01_15 None (Some [itemMpls]) = [].
Proof.
  assert (@None (list Circuit) = None \/ Some [itemMpls] = None) as H
    by (left; reflexivity).
  split; [exact H|].
  exact (proj2 (proj1 (timelineData_empty_iff_no_data 0 parseISODate
                         t_2024_01_15 None (Some [itemMpls]))) H).
Defined.

Lemma closed_range_item_is_active_in_its_window_witness :
  newDateOfString parseISODate "2024-01-15"
  = monthDateOf 0 (Some t_2024_01_15) (Z.of_nat 0)
  /\ newDateOfString parseISODate "2024-03-15"
     = monthDateOf 0 (Some t_2024_01_15) (Z.of_nat 2)
  /\ forall j : nat,
       isCircuitActive parseISODate itemMpls
         (monthDateOf 0 (Some t_2024_01_15) (Z.of_nat j))
       = (0 <=? j)%nat && (j <=? 2)%nat.
Proof.
  assert (newDateOfString parseISODate "2024-01-15"
          = monthDateOf 0 (Some t_2024_01_15) (Z.of_nat 0)) as Hs
    by (vm_compute; reflexivity).
  assert (newDateOfString parseISODate "2024-03-15"
          = monthDateOf 0 (Some t_2024_01_15) (Z.of_nat 2)) as He
    by (vm_compute; reflexivity).
  split; [exact Hs|]. split; [exact He|].
  exact (closed_range_item_is_active_in_its_window 0 parseISODate
           t_2024_01_15 itemMpls "2024-01-15" "2024-03-15" 0 2
           eq_refl eq_refl eq_refl eq_refl Hs He).
Defined.

Lemma active_buckets_are_contiguous_witness :
  (0 <= 1 <= 2)%nat
  /\ isCircuitActive parseISODate itemMpls
       (monthDateOf 0 (Some t_2024_01_15) (Z.of_nat 1)) = true.
Proof.
  assert (isCircuitActive parseISODate itemMpls
            (monthDateOf 0 (Some t_2024_01_15) (Z.of_nat 0)) = true) as H0
    by (vm_compute; reflexivity).
  assert (isCircuitActive parseISODate itemMpls
            (monthDateOf 0 (Some t_2024_01_15) (Z.of_nat 2)) = true) as H2
    by (vm_compute; reflexivity).
  split; [lia|].
  exact (active_buckets_are_contiguous 0 parseISODate t_2024_01_15 itemMpls
           0 1 2 ltac:(lia) H0 H2).
Defined.
